(** * Todo-App: the persistence layer (lib/pg-persistence.js, lib/db-query.js)

    A shallow embedding of the PostgreSQL-backed persistence service of the
    Todo application and of the query executor it is built on.

    - The relational store is a record of tables (lists of rows); every SQL
      statement the service issues is a constructor of [Statement] whose
      meaning is given by [run_statement].
    - Asynchronous code is written in a state-and-exception monad over
      [World]: the store, the number of open connections, the console and
      a plan of environment faults.  A rejected promise keeps the effects
      performed before the rejection, as in JavaScript. *)

From Stdlib Require Import String Ascii List Bool ZArith NArith Arith Lia.
From Stdlib Require Import Sorting.Sorted Sorting.Permutation.
Import ListNotations.

Set Implicit Arguments.

Local Open Scope string_scope.
Local Open Scope list_scope.

(* ================================================================== *)
(** ** Strings: lower(), comparison, RegExp.prototype.test *)
(* ================================================================== *)

Module Str.

(** [lower()] on one character: the ASCII letters A-Z are mapped to a-z. *)
Definition lower_ascii (c : ascii) : ascii :=
  let n := N_of_ascii c in
  if ((65 <=? n) && (n <=? 90))%N then ascii_of_N (n + 32) else c.

(** SQL [lower(title)]. *)
Fixpoint lower (s : string) : string :=
  match s with
  | EmptyString => EmptyString
  | String c s' => String (lower_ascii c) (lower s')
  end.

(** [includes pat s]: [pat] occurs somewhere in [s]; this is what
    [/pat/.test(s)] computes for a pattern without metacharacters. *)
Fixpoint includes (pat s : string) : bool :=
  match s with
  | EmptyString => String.prefix pat EmptyString
  | String _ s' => String.prefix pat s || includes pat s'
  end.

Definition quote : string := String (ascii_of_nat 34) EmptyString.

End Str.

(* ================================================================== *)
(** ** ORDER BY: a stable sort by a boolean order *)
(* ================================================================== *)

Section OrderBy.
Variable A : Type.
Variable leb : A -> A -> bool.

Fixpoint insert_row (x : A) (l : list A) : list A :=
  match l with
  | [] => [x]
  | y :: l' => if leb x y then x :: y :: l' else y :: insert_row x l'
  end.

Fixpoint order_by (l : list A) : list A :=
  match l with
  | [] => []
  | x :: l' => insert_row x (order_by l')
  end.
End OrderBy.

(* ================================================================== *)
(** ** The relational store *)
(* ================================================================== *)

(** users(username PK, password TEXT) *)
Record User := mkUser {
  user_username : string;
  user_password : string
}.

(** todos(id PK, title TEXT, done BOOLEAN, todolist_id FK, username FK) *)
Record Todo := mkTodo {
  todo_id : Z;
  todo_title : string;
  done : bool;
  todolist_id : Z;
  todo_username : string
}.

(** todolists(id PK, title TEXT, username FK), as fetched from the store. *)
Record TodoListRow := mkTodoListRow {
  row_id : Z;
  row_title : string;
  row_username : string
}.

(** A todo list object after the service has set its [todos] property. *)
Record TodoList := mkTodoList {
  id : Z;
  title : string;
  username : string;
  todos : list Todo
}.

(** Modelled from the spec: the schema file is not among the sources.  The
    tables are the three of the persisted schema; the ids of new rows come
    from a sequence per table, [done] defaults to false, (username, title)
    is unique on todolists under the constraint named
    [unique_constraint], and the foreign keys are those of the schema. *)
Record Database := mkDatabase {
  users : list User;
  todolists : list TodoListRow;
  todo_rows : list Todo;
  todolists_id_seq : Z;
  todos_id_seq : Z;
  unique_constraint : string
}.

(** A JavaScript error object: [String(error)] is [name: message]. *)
Record Error := mkError {
  error_name : string;
  error_message : string
}.

Definition String_of_error (e : Error) : string :=
  if (error_name e =? "")%string then error_message e
  else if (error_message e =? "")%string then error_name e
  else error_name e ++ ": " ++ error_message e.

(** Positional statement parameters. *)
Inductive Value :=
| VInt (z : Z)
| VStr (s : string).

(** What [client.query] resolves to. *)
Record QueryResult (R : Type) := mkResult {
  rows : list R;
  rowCount : nat
}.

(** The row of [SELECT password FROM users]. *)
Record PasswordRow := mkPasswordRow {
  row_password : string
}.

(** The SQL statements of the persistence service, indexed by the type of
    the rows they return ([unit] for statements that return no column of
    interest).  Each is named after the constant that holds its text;
    [existsTodoListTitle] calls its statement FIND_TODOLIST as well, it is
    [FIND_TODOLIST_TITLE] here. *)
Inductive Statement : Type -> Type :=
| FIND_PASSWORD : Statement PasswordRow
| ALL_TODOLISTS : Statement TodoListRow
| ALL_TODOS : Statement Todo
| SORTED_TODOS : Statement Todo
| FIND_TODOLIST : Statement TodoListRow
| FIND_TODOS : Statement Todo
| TOGGLE_DONE : Statement unit
| FIND_TODO : Statement Todo
| DELETE_TODO : Statement unit
| MARK_ALL_DONE : Statement unit
| ADD_TITLE : Statement unit
| DELETE_TODOLIST : Statement unit
| FIND_TODOLIST_TITLE : Statement unit
| CREATE_TODOLIST : Statement unit
| UPDATE_TITLE : Statement unit.

Definition sql_text R (s : Statement R) : string :=
  match s with
  | FIND_PASSWORD => "SELECT password FROM users " ++ "WHERE username = $1"
  | ALL_TODOLISTS => "SELECT * FROM todolists WHERE username = $1 " ++
                     "ORDER BY lower(title) ASC"
  | ALL_TODOS => "SELECT * FROM todos WHERE username = $1"
  | SORTED_TODOS => "SELECT * FROM todos " ++
                    "WHERE todolist_id = $1 AND username = $2 " ++
                    "ORDER BY done ASC, lower(title) ASC"
  | FIND_TODOLIST => "SELECT * FROM todolists " ++
                     "WHERE id = $1 AND username = $2"
  | FIND_TODOS => "SELECT * FROM todos " ++
                  "WHERE todolist_id = $1 AND username = $2"
  | TOGGLE_DONE => "UPDATE todos SET done = NOT done " ++
                   "WHERE todolist_id = $1 AND id = $2 AND username = $3"
  | FIND_TODO => "SELECT * FROM todos " ++
                 "WHERE todolist_id = $1 AND id = $2 AND username = $3"
  | DELETE_TODO => "DELETE FROM todos " ++
                   "WHERE todolist_id = $1 AND id = $2 AND username = $3"
  | MARK_ALL_DONE => "UPDATE todos SET done = true " ++
                     "WHERE todolist_id = $1 AND username = $2"
  | ADD_TITLE => "INSERT INTO todos (title, todolist_id, username) " ++
                 "VALUES ($1, $2, $3)"
  | DELETE_TODOLIST => "DELETE FROM todolists " ++
                       "WHERE id = $1 AND username = $2"
  | FIND_TODOLIST_TITLE => "SELECT null FROM todolists " ++
                           "WHERE title = $1 AND username = $2"
  | CREATE_TODOLIST => "INSERT INTO todolists (title, username) " ++
                       "VALUES ($1, $2)"
  | UPDATE_TITLE => "UPDATE todolists SET title = $1 " ++
                    "WHERE id = $2 AND username = $3"
  end.

(* ------------------------------------------------------------------ *)
(** *** WHERE clauses and ORDER BY keys *)

(** [WHERE username = $1] on todolists. *)
Definition list_of_user (u : string) (r : TodoListRow) : bool :=
  (row_username r =? u)%string.

(** [WHERE id = $1 AND username = $2] on todolists. *)
Definition list_with_id (i : Z) (u : string) (r : TodoListRow) : bool :=
  (row_id r =? i)%Z && (row_username r =? u)%string.

(** [WHERE title = $1 AND username = $2] on todolists. *)
Definition list_with_title (t u : string) (r : TodoListRow) : bool :=
  (row_title r =? t)%string && (row_username r =? u)%string.

(** [WHERE username = $1] on todos. *)
Definition todo_of_user (u : string) (t : Todo) : bool :=
  (todo_username t =? u)%string.

(** [WHERE todolist_id = $1 AND username = $2] on todos. *)
Definition todo_of_list (l : Z) (u : string) (t : Todo) : bool :=
  (todolist_id t =? l)%Z && (todo_username t =? u)%string.

(** [WHERE todolist_id = $1 AND id = $2 AND username = $3] on todos. *)
Definition todo_with_id (l i : Z) (u : string) (t : Todo) : bool :=
  (todolist_id t =? l)%Z && (todo_id t =? i)%Z && (todo_username t =? u)%string.

(** [ORDER BY lower(title) ASC]. *)
Definition title_leb (a b : string) : bool :=
  String.leb (Str.lower a) (Str.lower b).

Definition list_leb (a b : TodoListRow) : bool :=
  title_leb (row_title a) (row_title b).

(** [ORDER BY done ASC, lower(title) ASC]: false sorts before true. *)
Definition todo_leb (a b : Todo) : bool :=
  match done a, done b with
  | false, true => true
  | true, false => false
  | _, _ => title_leb (todo_title a) (todo_title b)
  end.

(** [UPDATE ... SET ... WHERE p]: the rows that satisfy [p] are rewritten
    in place; the row count is the number of rows that satisfy [p], whether
    or not the assignment changes them. *)
Definition update_where A (p : A -> bool) (f : A -> A) (l : list A) : list A :=
  map (fun r => if p r then f r else r) l.

Definition count_where A (p : A -> bool) (l : list A) : nat :=
  length (filter p l).

(** [DELETE ... WHERE p]. *)
Definition delete_where A (p : A -> bool) (l : list A) : list A :=
  filter (fun r => negb (p r)) l.

Definition set_done (b : bool) (t : Todo) : Todo :=
  mkTodo (todo_id t) (todo_title t) b (todolist_id t) (todo_username t).

Definition toggle (t : Todo) : Todo := set_done (negb (done t)) t.

Definition set_row_title (s : string) (r : TodoListRow) : TodoListRow :=
  mkTodoListRow (row_id r) s (row_username r).

Definition with_todos (db : Database) (l : list Todo) : Database :=
  mkDatabase (users db) (todolists db) l
             (todolists_id_seq db) (todos_id_seq db) (unique_constraint db).

Definition with_todolists (db : Database) (l : list TodoListRow) : Database :=
  mkDatabase (users db) l (todo_rows db)
             (todolists_id_seq db) (todos_id_seq db) (unique_constraint db).

(* ------------------------------------------------------------------ *)
(** *** Errors of the store *)

Definition pg_error (msg : string) : Error := mkError "error" msg.

(** SQLSTATE 23505. *)
Definition unique_violation (constraint : string) : Error :=
  pg_error ("duplicate key value violates unique constraint " ++
            Str.quote ++ constraint ++ Str.quote).

(** SQLSTATE 23503. *)
Definition foreign_key_violation (table : string) : Error :=
  pg_error ("insert or update on table " ++ Str.quote ++ table ++ Str.quote ++
            " violates foreign key constraint").

(** The parameters do not fit the placeholders of the statement. *)
Definition bind_error : Error :=
  pg_error "could not bind the parameters of the statement".

Definition user_exists (db : Database) (u : string) : bool :=
  existsb (fun r => (user_username r =? u)%string) (users db).

Definition list_exists (db : Database) (i : Z) : bool :=
  existsb (fun r => (row_id r =? i)%Z) (todolists db).

Definition title_taken (db : Database) (t u : string) : bool :=
  existsb (list_with_title t u) (todolists db).

(** A rename clashes when a row it renames shares its owner with another
    row that already carries the new title. *)
Definition rename_clashes (db : Database) (t : string) (i : Z) (u : string) : bool :=
  existsb (list_with_id i u) (todolists db) &&
  existsb (fun r => negb (row_id r =? i)%Z && list_with_title t u r) (todolists db).

(* ------------------------------------------------------------------ *)
(** *** Promises *)

(** The settled state of a promise. *)
Inductive Outcome (A : Type) :=
| Resolved (a : A)
| Rejected (e : Error).

Arguments Resolved {A} a.
Arguments Rejected {A} e.

(* ------------------------------------------------------------------ *)
(** *** The meaning of the statements *)

Definition select R (l : list R) : QueryResult R := mkResult l (length l).

Definition command (n : nat) : QueryResult unit := mkResult [] n.

Definition next_todolist_id (db : Database) : Database :=
  mkDatabase (users db) (todolists db) (todo_rows db)
             (todolists_id_seq db + 1) (todos_id_seq db) (unique_constraint db).

Definition next_todo_id (db : Database) : Database :=
  mkDatabase (users db) (todolists db) (todo_rows db)
             (todolists_id_seq db) (todos_id_seq db + 1) (unique_constraint db).

(** INSERT INTO todos: the id is drawn from the sequence (also when the
    insert is rejected afterwards), [done] takes its default. *)
Definition insert_todo (t : string) (l : Z) (u : string) (db : Database)
  : Outcome (QueryResult unit) * Database :=
  let i := todos_id_seq db in
  let db1 := next_todo_id db in
  if existsb (fun r => (todo_id r =? i)%Z) (todo_rows db) then
    (Rejected (unique_violation "todos_pkey"), db1)
  else if negb (list_exists db l) || negb (user_exists db u) then
    (Rejected (foreign_key_violation "todos"), db1)
  else
    (Resolved (command 1), with_todos db1 (todo_rows db ++ [mkTodo i t false l u])).

(** INSERT INTO todolists. *)
Definition insert_todolist (t u : string) (db : Database)
  : Outcome (QueryResult unit) * Database :=
  let i := todolists_id_seq db in
  let db1 := next_todolist_id db in
  if list_exists db i then
    (Rejected (unique_violation "todolists_pkey"), db1)
  else if title_taken db t u then
    (Rejected (unique_violation (unique_constraint db)), db1)
  else if negb (user_exists db u) then
    (Rejected (foreign_key_violation "todolists"), db1)
  else
    (Resolved (command 1), with_todolists db1 (todolists db ++ [mkTodoListRow i t u])).

(** DELETE FROM todolists: the todos of a deleted list go with it. *)
Definition delete_todolist (i : Z) (u : string) (db : Database)
  : Outcome (QueryResult unit) * Database :=
  let n := count_where (list_with_id i u) (todolists db) in
  (Resolved (command n),
   mkDatabase (users db)
              (delete_where (list_with_id i u) (todolists db))
              (delete_where (fun t => (todolist_id t =? i)%Z && (0 <? n)%nat) (todo_rows db))
              (todolists_id_seq db) (todos_id_seq db) (unique_constraint db)).

Definition run_statement R (s : Statement R) (parameters : list Value) (db : Database)
  : Outcome (QueryResult R) * Database :=
  match s in Statement R return Outcome (QueryResult R) * Database with
  | FIND_PASSWORD =>
      match parameters with
      | [VStr u] =>
          (Resolved (select (map (fun r => mkPasswordRow (user_password r))
                       (filter (fun r => (user_username r =? u)%string) (users db)))), db)
      | _ => (Rejected bind_error, db)
      end
  | ALL_TODOLISTS =>
      match parameters with
      | [VStr u] =>
          (Resolved (select (order_by list_leb (filter (list_of_user u) (todolists db)))), db)
      | _ => (Rejected bind_error, db)
      end
  | ALL_TODOS =>
      match parameters with
      | [VStr u] => (Resolved (select (filter (todo_of_user u) (todo_rows db))), db)
      | _ => (Rejected bind_error, db)
      end
  | SORTED_TODOS =>
      match parameters with
      | [VInt l; VStr u] =>
          (Resolved (select (order_by todo_leb (filter (todo_of_list l u) (todo_rows db)))), db)
      | _ => (Rejected bind_error, db)
      end
  | FIND_TODOLIST =>
      match parameters with
      | [VInt i; VStr u] =>
          (Resolved (select (filter (list_with_id i u) (todolists db))), db)
      | _ => (Rejected bind_error, db)
      end
  | FIND_TODOS =>
      match parameters with
      | [VInt l; VStr u] =>
          (Resolved (select (filter (todo_of_list l u) (todo_rows db))), db)
      | _ => (Rejected bind_error, db)
      end
  | TOGGLE_DONE =>
      match parameters with
      | [VInt l; VInt i; VStr u] =>
          (Resolved (command (count_where (todo_with_id l i u) (todo_rows db))),
           with_todos db (update_where (todo_with_id l i u) toggle (todo_rows db)))
      | _ => (Rejected bind_error, db)
      end
  | FIND_TODO =>
      match parameters with
      | [VInt l; VInt i; VStr u] =>
          (Resolved (select (filter (todo_with_id l i u) (todo_rows db))), db)
      | _ => (Rejected bind_error, db)
      end
  | DELETE_TODO =>
      match parameters with
      | [VInt l; VInt i; VStr u] =>
          (Resolved (command (count_where (todo_with_id l i u) (todo_rows db))),
           with_todos db (delete_where (todo_with_id l i u) (todo_rows db)))
      | _ => (Rejected bind_error, db)
      end
  | MARK_ALL_DONE =>
      match parameters with
      | [VInt l; VStr u] =>
          (Resolved (command (count_where (todo_of_list l u) (todo_rows db))),
           with_todos db (update_where (todo_of_list l u) (set_done true) (todo_rows db)))
      | _ => (Rejected bind_error, db)
      end
  | ADD_TITLE =>
      match parameters with
      | [VStr t; VInt l; VStr u] => insert_todo t l u db
      | _ => (Rejected bind_error, db)
      end
  | DELETE_TODOLIST =>
      match parameters with
      | [VInt i; VStr u] => delete_todolist i u db
      | _ => (Rejected bind_error, db)
      end
  | FIND_TODOLIST_TITLE =>
      match parameters with
      | [VStr t; VStr u] =>
          (Resolved (select (map (fun _ => tt)
                       (filter (list_with_title t u) (todolists db)))), db)
      | _ => (Rejected bind_error, db)
      end
  | CREATE_TODOLIST =>
      match parameters with
      | [VStr t; VStr u] => insert_todolist t u db
      | _ => (Rejected bind_error, db)
      end
  | UPDATE_TITLE =>
      match parameters with
      | [VStr t; VInt i; VStr u] =>
          if rename_clashes db t i u then
            (Rejected (unique_violation (unique_constraint db)), db)
          else
            (Resolved (command (count_where (list_with_id i u) (todolists db))),
             with_todolists db (update_where (list_with_id i u) (set_row_title t) (todolists db)))
      | _ => (Rejected bind_error, db)
      end
  end.

(* ================================================================== *)
(** ** The world of an asynchronous computation *)
(* ================================================================== *)

(** [connections] counts the clients that are connected and not ended;
    [console] holds what [console.log] has printed, newest first;
    [faults] is the plan of the environment: every operation of a client
    consumes one entry, and [Some e] makes that operation fail with [e]
    (a lost connection, a timeout, ...).  An empty plan means no fault. *)
Record World := mkWorld {
  database : Database;
  connections : nat;
  console : list (string * list Value);
  faults : list (option Error)
}.

Definition Async (A : Type) : Type := World -> Outcome A * World.

Definition ret A (a : A) : Async A := fun w => (Resolved a, w).

Definition throw A (e : Error) : Async A := fun w => (Rejected e, w).

Arguments throw {A} e.

(** [await]: the continuation runs when the promise resolves; a rejection
    is rethrown and the effects performed so far stay. *)
Definition bind A B (m : Async A) (k : A -> Async B) : Async B :=
  fun w =>
    match m w with
    | (Resolved a, w') => k a w'
    | (Rejected e, w') => (Rejected e, w')
    end.

(** [try { ... } catch (error) { ... }]. *)
Definition try_catch A (m : Async A) (handler : Error -> Async A) : Async A :=
  fun w =>
    match m w with
    | (Resolved a, w') => (Resolved a, w')
    | (Rejected e, w') => handler e w'
    end.

(** [Promise.all([p, q])] where both promises were created, in this order,
    before the await: both computations run to their end, and the joint
    promise rejects with the error of the first that rejected.  The two
    queries of a joint read only read the store, so running the first to
    its end before the second gives the rows of any interleaving. *)
Definition Promise_all A B (p : Async A) (q : Async B) : Async (A * B) :=
  fun w =>
    let (a, w1) := p w in
    let (b, w2) := q w1 in
    match a, b with
    | Resolved x, Resolved y => (Resolved (x, y), w2)
    | Rejected e, _ => (Rejected e, w2)
    | _, Rejected e => (Rejected e, w2)
    end.

Declare Scope async_scope.
Delimit Scope async_scope with async.
Notation "x <- m ;; k" := (bind m (fun x => k))
  (at level 61, m at next level, right associativity) : async_scope.
Notation "m ;;; k" := (bind m (fun _ => k))
  (at level 61, right associativity) : async_scope.
Local Open Scope async_scope.

(* ------------------------------------------------------------------ *)
(** *** The pg client *)

Module Client.

Definition set_faults (fs : list (option Error)) (w : World) : World :=
  mkWorld (database w) (connections w) (console w) fs.

(** An operation that the environment may fail. *)
Definition fallible A (op : Async A) : Async A :=
  fun w =>
    match faults w with
    | Some e :: rest => (Rejected e, set_faults rest w)
    | None :: rest => op (set_faults rest w)
    | [] => op w
    end.

(** [client.connect()] *)
Definition connect : Async unit :=
  fallible (fun w =>
    (Resolved tt,
     mkWorld (database w) (S (connections w)) (console w) (faults w))).

(** [client.query(statement, parameters)] *)
Definition query R (statement : Statement R) (parameters : list Value)
  : Async (QueryResult R) :=
  fallible (fun w =>
    let (r, db) := run_statement statement parameters (database w) in
    (r, mkWorld db (connections w) (console w) (faults w))).

(** [client.end()] *)
Definition end_ : Async unit :=
  fallible (fun w =>
    (Resolved tt,
     mkWorld (database w) (pred (connections w)) (console w) (faults w))).

End Client.

(* ================================================================== *)
(** ** lib/db-query.js *)
(* ================================================================== *)

(** The timestamp that precedes the statement on the console line is left
    out. *)
Definition logQuery R (statement : Statement R) (parameters : list Value)
  : Async unit :=
  fun w =>
    (Resolved tt,
     mkWorld (database w) (connections w)
             ((sql_text statement, parameters) :: console w) (faults w)).

(** The two variants of the module differ in the options given to
    [new Client] only (a local database, or a connection string); the body
    of [dbQuery] is the same. *)
Definition dbQuery R (statement : Statement R) (parameters : list Value)
  : Async (QueryResult R) :=
  Client.connect ;;;
  logQuery statement parameters ;;;
  result <- Client.query statement parameters ;;
  Client.end_ ;;;
  ret result.

(* ================================================================== *)
(** ** lib/pg-persistence.js *)
(* ================================================================== *)

(** The service object: [constructor(session)] keeps [session.username]. *)
Record PgPersistence := mkPgPersistence {
  this_username : string
}.

(** The todo list object made of a fetched row and the todos assigned to
    its [todos] property. *)
Definition with_list_todos (r : TodoListRow) (l : list Todo) : TodoList :=
  mkTodoList (row_id r) (row_title r) (row_username r) l.

Definition isDoneTodoList (todoList : TodoList) : bool :=
  (0 <? length (todos todoList))%nat && forallb (fun todo => done todo) (todos todoList).

Definition hasUndoneTodos (todoList : TodoList) : bool :=
  existsb (fun todo => negb (done todo)) (todos todoList).

(** The two arrays of [_partitionTodoLists], filled by the forEach loop. *)
Definition partition_step (acc : list TodoList * list TodoList) (todoList : TodoList)
  : list TodoList * list TodoList :=
  let (done_, undone) := acc in
  if isDoneTodoList todoList then (done_ ++ [todoList], undone)
  else (done_, undone ++ [todoList]).

Definition _partitionTodoLists (todoLists : list TodoList) : list TodoList :=
  let (done_, undone) := fold_left partition_step todoLists ([], []) in
  undone ++ done_.

(** [/duplicate key value violates unique constraint/.test(String(error))] *)
Definition isUniqueConstraintViolation (error : Error) : bool :=
  Str.includes "duplicate key value violates unique constraint"
               (String_of_error error).

Section Service.

(** [bcrypt.compare(password, hash)], an opaque one-way comparison. *)
Variable bcrypt_compare : string -> string -> bool.

(** Every method takes the service object it is called on. *)

Definition authenticated (this : PgPersistence) (username password : string) : Async bool :=
  result <- dbQuery FIND_PASSWORD [VStr username] ;;
  if (rowCount result =? 0)%nat then ret false
  else
    match rows result with
    | row :: _ => ret (bcrypt_compare password (row_password row))
    | [] => throw (mkError "TypeError"
                     "Cannot read properties of undefined (reading 'password')")
    end.

(** The guard [if (!allTodoLists || !allTodos) return undefined] never
    fires: [rows] is an array, and every array is truthy. *)
Definition sortedTodoLists (this : PgPersistence) : Async (list TodoList) :=
  resultBoth <- Promise_all (dbQuery ALL_TODOLISTS [VStr (this_username this)])
                            (dbQuery ALL_TODOS [VStr (this_username this)]) ;;
  let allTodoLists := rows (fst resultBoth) in
  let allTodos := rows (snd resultBoth) in
  ret (_partitionTodoLists
         (map (fun todoList =>
                 with_list_todos todoList
                   (filter (fun todo => (row_id todoList =? todolist_id todo)%Z)
                           allTodos))
              allTodoLists)).

Definition sortedTodos (this : PgPersistence) (todoList : TodoList) : Async (list Todo) :=
  todos <- dbQuery SORTED_TODOS [VInt (id todoList); VStr (this_username this)] ;;
  ret (rows todos).

(** [None] is [undefined]. *)
Definition loadTodoList (this : PgPersistence) (todoListId : Z) : Async (option TodoList) :=
  resultBoth <- Promise_all
                  (dbQuery FIND_TODOLIST [VInt todoListId; VStr (this_username this)])
                  (dbQuery FIND_TODOS [VInt todoListId; VStr (this_username this)]) ;;
  match rows (fst resultBoth) with
  | [] => ret None
  | todoList :: _ => ret (Some (with_list_todos todoList (rows (snd resultBoth))))
  end.

Definition toggleDoneTodo (this : PgPersistence) (todoListId todoId : Z) : Async bool :=
  result <- dbQuery TOGGLE_DONE
              [VInt todoListId; VInt todoId; VStr (this_username this)] ;;
  ret (0 <? rowCount result)%nat.

Definition loadTodo (this : PgPersistence) (todoListId todoId : Z) : Async (option Todo) :=
  result <- dbQuery FIND_TODO
              [VInt todoListId; VInt todoId; VStr (this_username this)] ;;
  ret (hd_error (rows result)).

Definition removeTodoFromTodoList (this : PgPersistence) (todoListId todoId : Z) : Async bool :=
  result <- dbQuery DELETE_TODO
              [VInt todoListId; VInt todoId; VStr (this_username this)] ;;
  ret (0 <? rowCount result)%nat.

Definition markAllDone (this : PgPersistence) (todoListId : Z) : Async bool :=
  result <- dbQuery MARK_ALL_DONE [VInt todoListId; VStr (this_username this)] ;;
  ret (0 <? rowCount result)%nat.

Definition addTodo (this : PgPersistence) (todoTitle : string) (todoListId : Z) : Async bool :=
  result <- dbQuery ADD_TITLE
              [VStr todoTitle; VInt todoListId; VStr (this_username this)] ;;
  ret (0 <? rowCount result)%nat.

Definition deleteTodoList (this : PgPersistence) (todoListId : Z) : Async bool :=
  result <- dbQuery DELETE_TODOLIST [VInt todoListId; VStr (this_username this)] ;;
  ret (0 <? rowCount result)%nat.

Definition existsTodoListTitle (this : PgPersistence) (title : string) : Async bool :=
  result <- dbQuery FIND_TODOLIST_TITLE [VStr title; VStr (this_username this)] ;;
  ret (0 <? rowCount result)%nat.

Definition createTodoList (this : PgPersistence) (title : string) : Async bool :=
  try_catch
    (results <- dbQuery CREATE_TODOLIST [VStr title; VStr (this_username this)] ;;
     ret (0 <? rowCount results)%nat)
    (fun error =>
       if isUniqueConstraintViolation error then ret false
       else throw error).

Definition setTitle (this : PgPersistence) (todoListId : Z) (title : string) : Async bool :=
  results <- dbQuery UPDATE_TITLE
               [VStr title; VInt todoListId; VStr (this_username this)] ;;
  ret (0 <? rowCount results)%nat.

End Service.

(* ================================================================== *)
(** ** Sample data *)
(* ================================================================== *)

Module Sample.

Definition alice : PgPersistence := mkPgPersistence "alice".
Definition bob : PgPersistence := mkPgPersistence "bob".

Definition db : Database :=
  mkDatabase
    [mkUser "alice" "$2b$10$alice"; mkUser "bob" "$2b$10$bob"]
    [mkTodoListRow 1 "work" "alice"; mkTodoListRow 2 "Home" "alice";
     mkTodoListRow 3 "garden" "bob"; mkTodoListRow 4 "Alpha" "alice"]
    [mkTodo 1 "buy milk" true 1 "alice"; mkTodo 2 "Answer mail" false 1 "alice";
     mkTodo 3 "sweep" true 2 "alice"; mkTodo 4 "water" false 3 "bob";
     mkTodo 5 "Zip files" true 1 "alice"; mkTodo 6 "call home" false 1 "alice"]
    5 7 "todolists_username_title_key".

(** No connection is open, nothing is logged, no fault is planned. *)
Definition world : World := mkWorld db 0 [] [].

Definition work : TodoList := mkTodoList 1 "work" "alice" [].

(** A stand-in for bcrypt: the hash of a password is the password behind
    a fixed prefix. *)
Definition compare (password hash : string) : bool :=
  (hash =? "$2b$10$" ++ password)%string.

End Sample.

(* ================================================================== *)
(** ** Vocabulary of the statements below *)
(* ================================================================== *)

(** The password column of the first row of users with the given name. *)
Definition stored_hash (db : Database) (username : string) : option string :=
  option_map user_password
    (find (fun r => (user_username r =? username)%string) (users db)).

(** Case-insensitive title order on todos and on todo lists. *)
Definition todo_title_le (a b : Todo) : Prop :=
  title_leb (todo_title a) (todo_title b) = true.

Definition list_title_le (a b : TodoList) : Prop :=
  title_leb (title a) (title b) = true.

Definition not_done (t : Todo) : bool := negb (done t).

Definition isUndoneTodoList (l : TodoList) : bool := negb (isDoneTodoList l).

(** A list row of the store together with the todos that [sortedTodoLists]
    puts on it: the todos of the identity that point to the row. *)
Definition list_with_its_todos (u : string) (db : Database) (r : TodoListRow)
  : TodoList :=
  with_list_todos r
    (filter (fun t => (row_id r =? todolist_id t)%Z)
            (filter (todo_of_user u) (todo_rows db))).

(** The lists of an identity in the order in which ALL_TODOLISTS returns
    them. *)
Definition fetched_lists (u : string) (db : Database) : list TodoList :=
  map (list_with_its_todos u db)
      (order_by list_leb (filter (list_of_user u) (todolists db))).

(** Ownership of what a read returns. *)
Definition todos_of (u : string) (l : list Todo) : Prop :=
  Forall (fun t => todo_username t = u) l.

Definition lists_of (u : string) (ls : list TodoList) : Prop :=
  Forall (fun l => username l = u /\ todos_of u (todos l)) ls.

Definition no_todo_of (u : string) (l : list Todo) : Prop :=
  Forall (fun t => todo_username t <> u) l.

Definition no_list_of (u : string) (ls : list TodoList) : Prop :=
  Forall (fun l => username l <> u /\ no_todo_of u (todos l)) ls.

(** The statements that are a SELECT. *)
Definition is_select R (s : Statement R) : bool :=
  String.prefix "SELECT " (sql_text s).

(** The todo list object of the list page: the handler of
    [GET /lists/:todoListId] replaces the todos of the loaded list by the
    rows of [sortedTodos]. *)
Definition set_todos (l : TodoList) (ts : list Todo) : TodoList :=
  mkTodoList (id l) (title l) (username l) ts.

(** An asynchronous computation that leaves the store as it found it,
    however it settles. *)
Definition keeps_store A (m : Async A) : Prop :=
  forall w, database (snd (m w)) = database w.

(** An asynchronous computation that, when it resolves, has ended every
    connection it opened. *)
Definition ends_connections A (m : Async A) : Prop :=
  forall w a w', m w = (Resolved a, w') -> connections w' = connections w.

(** The rows of an identity. *)
Definition todos_of_user (u : string) (db : Database) : list Todo :=
  filter (todo_of_user u) (todo_rows db).

Definition lists_of_user (u : string) (db : Database) : list TodoListRow :=
  filter (list_of_user u) (todolists db).

(** An asynchronous computation that leaves the list rows, or the todos,
    of an identity as it found them, however it settles. *)
Definition keeps_lists_of A (u : string) (m : Async A) : Prop :=
  forall w, lists_of_user u (database (snd (m w))) = lists_of_user u (database w).

Definition keeps_todos_of A (u : string) (m : Async A) : Prop :=
  forall w, todos_of_user u (database (snd (m w))) = todos_of_user u (database w).

(** Runs of the service on the sample data, evaluated. *)
Module Runs.

Definition marked : World :=
  Eval vm_compute in snd (markAllDone Sample.alice 1 Sample.world).

Definition marked_loaded : Outcome (option TodoList) * World :=
  Eval vm_compute in loadTodoList Sample.alice 1 marked.

Definition added : World :=
  Eval vm_compute in snd (addTodo Sample.alice "dust" 2 Sample.world).

Definition added_loaded : Outcome (option TodoList) * World :=
  Eval vm_compute in loadTodoList Sample.alice 2 added.

Definition loaded : Outcome (option TodoList) * World :=
  Eval vm_compute in loadTodoList Sample.alice 1 Sample.world.

Definition loaded_list : TodoList :=
  Eval vm_compute in
    match fst loaded with
    | Resolved (Some l) => l
    | _ => Sample.work
    end.

Definition loaded_sorted : Outcome (list Todo) * World :=
  Eval vm_compute in sortedTodos Sample.alice loaded_list (snd loaded).

Definition all_lists : Outcome (list TodoList) * World :=
  Eval vm_compute in sortedTodoLists Sample.alice Sample.world.

End Runs.

(* ================================================================== *)
(** ** Lemmas on strings *)
(* ================================================================== *)

Lemma prefix_app (p s : string) : String.prefix p (p ++ s) = true.
Proof.
  induction p as [|c p IH]; simpl.
  - destruct s; reflexivity.
  - destruct (ascii_dec c c) as [_|N]; [exact IH | contradiction].
Qed.

Lemma includes_prefix (p s : string) :
  String.prefix p s = true -> Str.includes p s = true.
Proof.
  destruct s; simpl; intros H; [exact H | rewrite H; reflexivity].
Qed.

Lemma includes_app (p a s : string) : Str.includes p (a ++ p ++ s) = true.
Proof.
  induction a as [|c a IH]; simpl.
  - apply includes_prefix, prefix_app.
  - rewrite IH. apply orb_true_r.
Qed.

Lemma string_compare_le_trans (a b c : string) :
  String.compare a b <> Gt -> String.compare b c <> Gt -> String.compare a c <> Gt.
Proof.
  revert b c; induction a as [|x a IH]; intros [|y b] [|z c]; simpl;
    try congruence.
  unfold Ascii.compare.
  destruct (N.compare_spec (N_of_ascii x) (N_of_ascii y)) as [E1|L1|G1];
    destruct (N.compare_spec (N_of_ascii y) (N_of_ascii z)) as [E2|L2|G2];
    try congruence; intros H1 H2.
  - rewrite E1, E2, N.compare_refl. now apply IH with b.
  - rewrite E1. apply N.compare_lt_iff in L2. rewrite L2. discriminate.
  - rewrite <- E2. apply N.compare_lt_iff in L1. rewrite L1. discriminate.
  - assert (L : (N_of_ascii x < N_of_ascii z)%N) by lia.
    apply N.compare_lt_iff in L. rewrite L. discriminate.
Qed.

Lemma string_leb_trans (a b c : string) :
  String.leb a b = true -> String.leb b c = true -> String.leb a c = true.
Proof.
  unfold String.leb. intros H1 H2.
  assert (H : String.compare a c <> Gt).
  { apply string_compare_le_trans with b.
    - destruct (String.compare a b); congruence.
    - destruct (String.compare b c); congruence. }
  destruct (String.compare a c); congruence.
Qed.

Lemma title_leb_total (a b : string) : title_leb a b = true \/ title_leb b a = true.
Proof. apply String.leb_total. Qed.

Lemma title_leb_trans (a b c : string) :
  title_leb a b = true -> title_leb b c = true -> title_leb a c = true.
Proof. apply string_leb_trans. Qed.

Lemma todo_leb_total (a b : Todo) : todo_leb a b = true \/ todo_leb b a = true.
Proof.
  unfold todo_leb. destruct (done a), (done b); auto using title_leb_total.
Qed.

Lemma todo_leb_trans (a b c : Todo) :
  todo_leb a b = true -> todo_leb b c = true -> todo_leb a c = true.
Proof.
  unfold todo_leb. destruct (done a), (done b), (done c);
    try discriminate; auto; apply title_leb_trans.
Qed.

(* ================================================================== *)
(** ** Lemmas on ORDER BY *)
(* ================================================================== *)

Section OrderByFacts.
Variable A : Type.
Variable leb : A -> A -> bool.
Hypothesis leb_total : forall a b, leb a b = true \/ leb b a = true.
Hypothesis leb_trans : forall a b c, leb a b = true -> leb b c = true -> leb a c = true.

Let le (a b : A) : Prop := leb a b = true.

Lemma insert_row_perm (x : A) (l : list A) : Permutation (insert_row leb x l) (x :: l).
Proof.
  induction l as [|y l IH]; simpl; [reflexivity|].
  destruct (leb x y); [reflexivity|].
  rewrite IH. apply perm_swap.
Qed.

Lemma order_by_perm (l : list A) : Permutation (order_by leb l) l.
Proof.
  induction l as [|x l IH]; simpl; [reflexivity|].
  rewrite insert_row_perm. now constructor.
Qed.

Lemma order_by_In (l : list A) (x : A) : In x (order_by leb l) <-> In x l.
Proof.
  split; apply Permutation_in;
    [apply order_by_perm | apply Permutation_sym, order_by_perm].
Qed.

Lemma insert_row_sorted (x : A) (l : list A) :
  StronglySorted le l -> StronglySorted le (insert_row leb x l).
Proof.
  induction 1 as [|y l S IH F]; simpl.
  - repeat constructor.
  - destruct (leb x y) eqn:E.
    + constructor; [now constructor|].
      constructor; [exact E|].
      eapply Forall_impl; [|exact F]. intros z Hz. now apply leb_trans with y.
    + constructor; [exact IH|].
      assert (Hyx : le y x) by (destruct (leb_total x y); congruence).
      eapply Permutation_Forall; [apply Permutation_sym, insert_row_perm|].
      now constructor.
Qed.

Lemma order_by_sorted (l : list A) : StronglySorted le (order_by leb l).
Proof.
  induction l; simpl; [constructor | now apply insert_row_sorted].
Qed.

Lemma filter_sorted (p : A -> bool) (l : list A) :
  StronglySorted le l -> StronglySorted le (filter p l).
Proof.
  induction 1 as [|y l S IH F]; simpl; [constructor|].
  destruct (p y); [|exact IH].
  constructor; [exact IH|].
  apply Forall_forall. intros z Hz. apply filter_In in Hz.
  rewrite Forall_forall in F. now apply F.
Qed.
End OrderByFacts.

(* ================================================================== *)
(** ** Lemmas on the query executor *)
(* ================================================================== *)

Lemma fallible_resolved A (op : Async A) (w w' : World) (a : A) :
  Client.fallible op w = (Resolved a, w') ->
  exists fs, op (Client.set_faults fs w) = (Resolved a, w').
Proof.
  unfold Client.fallible. destruct (faults w) as [|[e|] rest] eqn:F; intros H.
  - exists []. destruct w; simpl in *; subst; exact H.
  - discriminate.
  - now exists rest.
Qed.

(** A query that resolves has run its statement on the store it found,
    and has ended the connection it opened. *)
Lemma dbQuery_resolved R (s : Statement R) (ps : list Value) (w w' : World)
      (r : QueryResult R) :
  dbQuery s ps w = (Resolved r, w') ->
  run_statement s ps (database w) = (Resolved r, database w') /\
  connections w' = connections w.
Proof.
  unfold dbQuery, bind, ret, logQuery.
  destruct (Client.connect w) as [[[]|e] w1] eqn:C; [|discriminate].
  apply fallible_resolved in C. destruct C as [fs1 C].
  injection C as <-. simpl.
  match goal with |- context [Client.query s ps ?x] =>
    destruct (Client.query s ps x) as [[r'|e] w2] eqn:Q end; [|discriminate].
  apply fallible_resolved in Q. destruct Q as [fs2 Q]. simpl in Q.
  destruct (run_statement s ps (database w)) as [o db'] eqn:RS.
  injection Q as -> <-.
  match goal with |- context [Client.end_ ?x] =>
    destruct (Client.end_ x) as [[[]|e] w3] eqn:E end; [|discriminate].
  apply fallible_resolved in E. destruct E as [fs3 E]. simpl in E.
  injection E as <-. intros H. injection H as -> <-. simpl. auto.
Qed.

(** Without faults of the environment the outcome of a query is the
    outcome of its statement. *)
Lemma dbQuery_no_fault R (s : Statement R) (ps : list Value) (w : World) :
  faults w = [] ->
  dbQuery s ps w =
  match run_statement s ps (database w) with
  | (Resolved r, db') =>
      (Resolved r, mkWorld db' (connections w) ((sql_text s, ps) :: console w) [])
  | (Rejected e, db') =>
      (Rejected e, mkWorld db' (S (connections w)) ((sql_text s, ps) :: console w) [])
  end.
Proof.
  destruct w as [db n c fs]; simpl; intros ->.
  unfold dbQuery, bind, ret, logQuery, Client.connect, Client.query, Client.end_,
    Client.fallible; simpl.
  destruct (run_statement s ps db) as [[r|e] db']; reflexivity.
Qed.

Lemma Promise_all_resolved A B (p : Async A) (q : Async B) (w w' : World) (x : A * B) :
  Promise_all p q w = (Resolved x, w') ->
  exists w1, p w = (Resolved (fst x), w1) /\ q w1 = (Resolved (snd x), w').
Proof.
  unfold Promise_all.
  destruct (p w) as [[a|e] w1] eqn:P; destruct (q w1) as [[b|e'] w2] eqn:Q;
    intros H; try discriminate.
  injection H as <- <-. exists w1. split; [reflexivity | exact Q].
Qed.

(* ------------------------------------------------------------------ *)
(** *** WHERE clauses as propositions *)

Lemma list_of_user_true u r : list_of_user u r = true <-> row_username r = u.
Proof. unfold list_of_user. apply String.eqb_eq. Qed.

Lemma todo_of_user_true u t : todo_of_user u t = true <-> todo_username t = u.
Proof. unfold todo_of_user. apply String.eqb_eq. Qed.

Lemma list_with_id_true i u r :
  list_with_id i u r = true <-> row_id r = i /\ row_username r = u.
Proof.
  unfold list_with_id. rewrite andb_true_iff, Z.eqb_eq, String.eqb_eq. tauto.
Qed.

Lemma todo_of_list_true l u t :
  todo_of_list l u t = true <-> todolist_id t = l /\ todo_username t = u.
Proof.
  unfold todo_of_list. rewrite andb_true_iff, Z.eqb_eq, String.eqb_eq. tauto.
Qed.

Lemma todo_with_id_true l i u t :
  todo_with_id l i u t = true <->
  todolist_id t = l /\ todo_id t = i /\ todo_username t = u.
Proof.
  unfold todo_with_id.
  rewrite !andb_true_iff, !Z.eqb_eq, String.eqb_eq. tauto.
Qed.

(* ------------------------------------------------------------------ *)
(** *** UPDATE and row counts *)

Lemma count_where_pos A (p : A -> bool) (l : list A) :
  (0 <? count_where p l)%nat = existsb p l.
Proof.
  unfold count_where. induction l as [|x l IH]; simpl; [reflexivity|].
  destruct (p x); simpl; [reflexivity | exact IH].
Qed.

Lemma update_where_none A (p : A -> bool) (f : A -> A) (l : list A) :
  existsb p l = false -> update_where p f l = l.
Proof.
  unfold update_where. induction l as [|x l IH]; simpl; [reflexivity|].
  intros H. apply orb_false_iff in H. destruct H as [Hx Hl].
  rewrite Hx, (IH Hl). reflexivity.
Qed.

Lemma update_where_In A (p : A -> bool) (f : A -> A) (l : list A) (y : A) :
  In y (update_where p f l) <->
  exists x, In x l /\ y = (if p x then f x else x).
Proof.
  unfold update_where. rewrite in_map_iff.
  split; intros [x [H1 H2]]; exists x; split; auto.
Qed.

Lemma with_todos_same (db : Database) : with_todos db (todo_rows db) = db.
Proof. destruct db; reflexivity. Qed.

(** Opens the single query of a method whose promise resolved. *)
Ltac open_query H r w1 RS :=
  unfold bind, ret in H;
  match type of H with
  | context [dbQuery ?s ?ps ?w] =>
      let Q := fresh "Q" in
      let e := fresh "e" in
      destruct (dbQuery s ps w) as [[r|e] w1] eqn:Q; [|discriminate H];
      apply dbQuery_resolved in Q; destruct Q as [RS _]; simpl in RS
  end.

(** Runs a method in a world without faults. *)
Ltac run_no_fault F :=
  unfold bind, ret; rewrite (dbQuery_no_fault _ _ _ F); simpl.

(* ================================================================== *)
(** ** isDoneTodoList *)
(* ================================================================== *)

(** C2. [isDoneTodoList(list)] is true if and only if [list.todos] is not
    empty and every todo in it is done; it is false for a list without
    todos. *)
Theorem isDoneTodoList_iff_nonempty_all_done :
  (forall todoList : TodoList,
      isDoneTodoList todoList = true <->
      todos todoList <> [] /\
      forall todo, In todo (todos todoList) -> done todo = true) /\
  (forall i t u, isDoneTodoList (mkTodoList i t u []) = false).
Proof.
  split; [|reflexivity].
  intros [i t u l]. unfold isDoneTodoList. simpl.
  rewrite andb_true_iff, forallb_forall, Nat.ltb_lt.
  destruct l; simpl; split; intros [H1 H2]; split; auto; try lia; congruence.
Qed.

(* ================================================================== *)
(** ** authenticated *)
(* ================================================================== *)

Lemma find_password_rows (username : string) (l : list User) :
  match map (fun r => mkPasswordRow (user_password r))
            (filter (fun r => (user_username r =? username)%string) l) with
  | [] => find (fun r => (user_username r =? username)%string) l = None
  | row :: _ =>
      option_map user_password
        (find (fun r => (user_username r =? username)%string) l) =
      Some (row_password row)
  end.
Proof.
  induction l as [|x l IH]; simpl; [reflexivity|].
  destruct (user_username x =? username)%string; simpl; [reflexivity | exact IH].
Qed.

(** C9. [authenticated(username, password)] resolves to false when users
    holds no password for the supplied username, and to the result of
    [bcrypt.compare] on the supplied password and the stored hash
    otherwise.  The lookup takes the username that is supplied: the
    identity the service was constructed with plays no part.  Without a
    fault of the environment the promise resolves. *)
Theorem authenticated_compares_stored_hash
        (bcrypt_compare : string -> string -> bool) (this : PgPersistence)
        (username password : string) (w : World) :
  (forall other : PgPersistence,
      authenticated bcrypt_compare other username password w =
      authenticated bcrypt_compare this username password w) /\
  (forall b w',
      authenticated bcrypt_compare this username password w = (Resolved b, w') ->
      b = match stored_hash (database w) username with
          | None => false
          | Some hash => bcrypt_compare password hash
          end) /\
  (faults w = [] ->
   exists b w',
     authenticated bcrypt_compare this username password w = (Resolved b, w')).
Proof.
  split; [reflexivity|]. split.
  - intros b w' H. unfold authenticated in H. open_query H r w1 RS.
    injection RS as <- _. unfold stored_hash.
    pose proof (find_password_rows username (users (database w))) as F.
    simpl in H. unfold select in H. simpl in H.
    destruct (map _ _) as [|row rest]; simpl in H.
    + rewrite F. now injection H as <- _.
    + rewrite F. now injection H as <- _.
  - intros F. unfold authenticated. run_no_fault F.
    unfold select; simpl.
    destruct (map _ _) as [|row rest]; simpl; eauto.
Qed.

Lemma authenticated_compares_stored_hash_witness :
  authenticated Sample.compare Sample.bob "alice" "alice" Sample.world =
  (Resolved true,
   mkWorld Sample.db 0
           [(sql_text FIND_PASSWORD, [VStr "alice"])] []) /\
  true = match stored_hash (database Sample.world) "alice" with
         | None => false
         | Some hash => Sample.compare "alice" hash
         end.
Proof.
  split; [reflexivity|].
  apply (proj1 (proj2 (authenticated_compares_stored_hash
                         Sample.compare Sample.bob "alice" "alice" Sample.world))
               true
               (mkWorld Sample.db 0 [(sql_text FIND_PASSWORD, [VStr "alice"])] [])).
  reflexivity.
Defined.

(* ================================================================== *)
(** ** toggleDoneTodo *)
(* ================================================================== *)

(** C6. When [toggleDoneTodo(todoListId, todoId)] resolves: if a todo
    matches the list id, the todo id and the identity of the service, the
    result is true and exactly the matching rows have their done flag
    negated; if no row matches (wrong todo id, todo of another list, or row
    of another identity) the result is false and the store is unchanged.
    Without a fault of the environment the promise resolves. *)
Theorem toggleDoneTodo_flips_matching_row
        (this : PgPersistence) (todoListId todoId : Z) (w : World) :
  let matches := todo_with_id todoListId todoId (this_username this) in
  (forall b w',
      toggleDoneTodo this todoListId todoId w = (Resolved b, w') ->
      ((exists t, In t (todo_rows (database w)) /\ matches t = true) ->
       b = true /\
       database w' =
       with_todos (database w)
         (map (fun t => if matches t
                        then mkTodo (todo_id t) (todo_title t) (negb (done t))
                                    (todolist_id t) (todo_username t)
                        else t)
              (todo_rows (database w)))) /\
      ((forall t, In t (todo_rows (database w)) -> matches t = false) ->
       b = false /\ database w' = database w)) /\
  (faults w = [] ->
   exists b w', toggleDoneTodo this todoListId todoId w = (Resolved b, w')).
Proof.
  intros matches. split.
  - intros b w' H. unfold toggleDoneTodo in H. open_query H r w1 RS.
    injection RS as <- E. injection H as <- <-. simpl.
    rewrite count_where_pos. fold matches. fold matches in E. split.
    + intros [t [Ht Hm]]. split; [|symmetry; exact E].
      apply existsb_exists. now exists t.
    + intros Hnone.
      assert (N : existsb matches (todo_rows (database w)) = false).
      { destruct (existsb matches (todo_rows (database w))) eqn:X; [|reflexivity].
        apply existsb_exists in X. destruct X as [t [Ht Hm]].
        rewrite (Hnone t Ht) in Hm. discriminate. }
      split; [exact N|].
      rewrite <- E, (update_where_none _ _ _ N). apply with_todos_same.
  - intros F. unfold toggleDoneTodo. run_no_fault F. eauto.
Qed.

Lemma toggleDoneTodo_flips_matching_row_witness :
  (* todo 4 is in list 3 of bob: for alice and list 1 nothing matches *)
  (exists w',
      toggleDoneTodo Sample.alice 1 4 Sample.world = (Resolved false, w') /\
      database w' = Sample.db) /\
  (* todo 2 is in list 1 of alice and not done *)
  (exists w',
      toggleDoneTodo Sample.alice 1 2 Sample.world = (Resolved true, w') /\
      todo_rows (database w') =
      [mkTodo 1 "buy milk" true 1 "alice"; mkTodo 2 "Answer mail" true 1 "alice";
       mkTodo 3 "sweep" true 2 "alice"; mkTodo 4 "water" false 3 "bob";
       mkTodo 5 "Zip files" true 1 "alice"; mkTodo 6 "call home" false 1 "alice"]).
Proof.
  split.
  - eexists. split; [reflexivity|].
    refine (proj2 (proj2
      (proj1 (toggleDoneTodo_flips_matching_row Sample.alice 1 4 Sample.world)
             false _ eq_refl) _)).
    intros t Ht. simpl in Ht.
    repeat (destruct Ht as [<-|Ht]; [reflexivity|]). contradiction.
  - eexists. split; [reflexivity|].
    refine (f_equal todo_rows (proj2 (proj1
      (proj1 (toggleDoneTodo_flips_matching_row Sample.alice 1 2 Sample.world)
             true _ eq_refl) _))).
    exists (mkTodo 2 "Answer mail" false 1 "alice"). split; [simpl; tauto | reflexivity].
Defined.

(* ================================================================== *)
(** ** markAllDone *)
(* ================================================================== *)

Lemma set_done_matches l u t : todo_of_list l u (set_done true t) = todo_of_list l u t.
Proof. reflexivity. Qed.

Lemma mark_all_twice l u (rows : list Todo) :
  update_where (todo_of_list l u) (set_done true)
    (update_where (todo_of_list l u) (set_done true) rows) =
  update_where (todo_of_list l u) (set_done true) rows.
Proof.
  unfold update_where. rewrite map_map. apply map_ext. intros t.
  destruct (todo_of_list l u t) eqn:E.
  - rewrite set_done_matches, E. reflexivity.
  - rewrite E. reflexivity.
Qed.

Lemma mark_all_count l u (rows : list Todo) :
  existsb (todo_of_list l u)
    (update_where (todo_of_list l u) (set_done true) rows) =
  existsb (todo_of_list l u) rows.
Proof.
  unfold update_where. induction rows as [|t rows IH]; simpl; [reflexivity|].
  rewrite IH. destruct (todo_of_list l u t) eqn:E.
  - rewrite set_done_matches, E. reflexivity.
  - rewrite E. reflexivity.
Qed.

(** C7. When [markAllDone(todoListId)] resolves, every todo of that list
    owned by the identity is done and the other rows are untouched; the
    result is true if and only if at least one row matched the WHERE
    filter, whether or not its flag changed.  A second call leaves the
    store as the first call left it, with all those todos done, and
    resolves to the same boolean.  Without a fault of the environment the
    promise resolves. *)
Theorem markAllDone_idempotent
        (this : PgPersistence) (todoListId : Z) (w : World) :
  let matches := todo_of_list todoListId (this_username this) in
  (forall b w',
      markAllDone this todoListId w = (Resolved b, w') ->
      database w' =
      with_todos (database w)
        (map (fun t => if matches t
                       then mkTodo (todo_id t) (todo_title t) true
                                   (todolist_id t) (todo_username t)
                       else t)
             (todo_rows (database w))) /\
      (forall t, In t (todo_rows (database w')) -> matches t = true -> done t = true) /\
      (b = true <-> exists t, In t (todo_rows (database w)) /\ matches t = true) /\
      (forall b2 w'',
          markAllDone this todoListId w' = (Resolved b2, w'') ->
          database w'' = database w' /\ b2 = b)) /\
  (faults w = [] ->
   exists b w', markAllDone this todoListId w = (Resolved b, w')).
Proof.
  intros matches. split.
  - intros b w' H. unfold markAllDone in H. open_query H r w1 RS.
    injection RS as <- E. injection H as <- <-. simpl.
    rewrite count_where_pos. fold matches in E |- *.
    split; [symmetry; exact E|]. split; [|split].
    + rewrite <- E. simpl. intros t Ht Hm.
      apply update_where_In in Ht. destruct Ht as [x [_ ->]].
      unfold matches in *.
      destruct (todo_of_list todoListId (this_username this) x) eqn:X;
        [reflexivity | congruence].
    + rewrite existsb_exists. reflexivity.
    + intros b2 w'' H2. unfold markAllDone in H2. open_query H2 r2 w2 RS2.
      injection RS2 as <- E2. injection H2 as <- <-. simpl.
      rewrite count_where_pos. rewrite <- E in E2 |- *. simpl in E2 |- *.
      unfold matches. rewrite mark_all_count. split; [|reflexivity].
      rewrite <- E2. unfold with_todos; simpl. rewrite mark_all_twice. reflexivity.
  - intros F. unfold markAllDone. run_no_fault F. eauto.
Qed.

Lemma markAllDone_idempotent_witness :
  exists w' w'',
    markAllDone Sample.alice 1 Sample.world = (Resolved true, w') /\
    markAllDone Sample.alice 1 w' = (Resolved true, w'') /\
    database w'' = database w' /\ true = true.
Proof.
  eexists. eexists. split; [reflexivity|]. split; [reflexivity|].
  refine (proj2 (proj2 (proj2
    (proj1 (markAllDone_idempotent Sample.alice 1 Sample.world) true _ eq_refl)))
    true _ eq_refl).
Defined.

(* ================================================================== *)
(** ** addTodo *)
(* ================================================================== *)

(** C10. [addTodo(todoTitle, todoListId)] is one INSERT and nothing else.
    Whenever it resolves, the result is true and the store has gained
    exactly one todo, which carries the identity of the service as its
    username.  The insert succeeds as soon as the list id and the user
    exist in the store: who owns the list is never looked at, so a todo can
    be added to the list of another identity. *)
Theorem addTodo_inserts_under_identity
        (this : PgPersistence) (todoTitle : string) (todoListId : Z) (w : World) :
  let row := mkTodo (todos_id_seq (database w)) todoTitle false todoListId
                    (this_username this) in
  (forall b w',
      addTodo this todoTitle todoListId w = (Resolved b, w') ->
      b = true /\
      todo_rows (database w') = todo_rows (database w) ++ [row] /\
      todolists (database w') = todolists (database w)) /\
  (faults w = [] ->
   list_exists (database w) todoListId = true ->
   user_exists (database w) (this_username this) = true ->
   existsb (fun r => (todo_id r =? todos_id_seq (database w))%Z)
           (todo_rows (database w)) = false ->
   addTodo this todoTitle todoListId w =
   (Resolved true,
    mkWorld (with_todos (next_todo_id (database w)) (todo_rows (database w) ++ [row]))
            (connections w)
            ((sql_text ADD_TITLE,
              [VStr todoTitle; VInt todoListId; VStr (this_username this)])
               :: console w)
            [])).
Proof.
  intros row. split.
  - intros b w' H. unfold addTodo in H. open_query H r w1 RS.
    unfold insert_todo in RS.
    destruct (existsb _ (todo_rows (database w))); [discriminate|].
    destruct (negb _ || negb _); [discriminate|].
    injection RS as <- E. injection H as <- <-. rewrite <- E. simpl. auto.
  - intros F HL HU HI. unfold addTodo. run_no_fault F.
    unfold insert_todo. rewrite HI, HL, HU. reflexivity.
Qed.

Lemma addTodo_inserts_under_identity_witness :
  (* list 3 belongs to bob; alice adds a todo to it *)
  In (mkTodoListRow 3 "garden" "bob") (todolists Sample.db) /\
  exists w',
    addTodo Sample.alice "dig" 3 Sample.world = (Resolved true, w') /\
    todo_rows (database w') =
    todo_rows Sample.db ++ [mkTodo 7 "dig" false 3 "alice"].
Proof.
  split; [simpl; tauto|].
  eexists. split.
  - apply (proj2 (addTodo_inserts_under_identity Sample.alice "dig" 3 Sample.world));
      reflexivity.
  - reflexivity.
Defined.

(* ================================================================== *)
(** ** createTodoList *)
(* ================================================================== *)

Lemma unique_violation_classified (constraint : string) :
  isUniqueConstraintViolation (unique_violation constraint) = true.
Proof.
  unfold isUniqueConstraintViolation.
  assert (E : String_of_error (unique_violation constraint) =
              ("error: " ++
               "duplicate key value violates unique constraint " ++
               Str.quote ++ constraint ++ Str.quote)%string) by reflexivity.
  rewrite E.
  change ("duplicate key value violates unique constraint " ++ ?rest)%string
    with ("duplicate key value violates unique constraint" ++ " " ++ rest)%string.
  apply includes_app.
Qed.

(** The other errors of the store are not taken for uniqueness violations. *)
Lemma other_store_errors_not_classified :
  isUniqueConstraintViolation (foreign_key_violation "todolists") = false /\
  isUniqueConstraintViolation (foreign_key_violation "todos") = false /\
  isUniqueConstraintViolation bind_error = false.
Proof. repeat split; reflexivity. Qed.

Lemma insert_todolist_resolved t u db r db' :
  insert_todolist t u db = (Resolved r, db') -> rowCount r = 1.
Proof.
  unfold insert_todolist.
  destruct (list_exists db (todolists_id_seq db)); [discriminate|].
  destruct (title_taken db t u); [discriminate|].
  destruct (negb (user_exists db u)); [discriminate|].
  intros H. now injection H as <- _.
Qed.

Lemma insert_todolist_duplicate t u db :
  title_taken db t u = true ->
  exists c, insert_todolist t u db =
            (Rejected (unique_violation c), next_todolist_id db).
Proof.
  unfold insert_todolist. intros ->.
  destruct (list_exists db (todolists_id_seq db)); eauto.
Qed.

(** C4. [createTodoList(title)] resolves to false, and rejects with
    nothing, when the insert is rejected with a uniqueness violation; an
    error that is not one is rethrown as it is; an insert that succeeds
    gives true.  In particular, without a fault of the environment, a title
    that the identity already uses gives false and adds no list. *)
Theorem createTodoList_false_on_unique_violation
        (this : PgPersistence) (title : string) (w : World) :
  let insert := dbQuery CREATE_TODOLIST [VStr title; VStr (this_username this)] in
  (forall constraint w',
      insert w = (Rejected (unique_violation constraint), w') ->
      createTodoList this title w = (Resolved false, w')) /\
  (forall error w',
      insert w = (Rejected error, w') ->
      isUniqueConstraintViolation error = false ->
      createTodoList this title w = (Rejected error, w')) /\
  (forall results w',
      insert w = (Resolved results, w') ->
      createTodoList this title w = (Resolved true, w')) /\
  (faults w = [] ->
   title_taken (database w) title (this_username this) = true ->
   exists w',
     createTodoList this title w = (Resolved false, w') /\
     todolists (database w') = todolists (database w)).
Proof.
  intros insert. unfold createTodoList, try_catch, bind, ret. fold insert.
  repeat split.
  - intros c w' ->. now rewrite unique_violation_classified.
  - intros e w' -> ->. reflexivity.
  - intros r w' H. rewrite H.
    apply dbQuery_resolved in H. destruct H as [RS _]. simpl in RS.
    apply insert_todolist_resolved in RS. rewrite RS. reflexivity.
  - intros F T. unfold insert. rewrite (dbQuery_no_fault _ _ _ F). simpl.
    destruct (insert_todolist_duplicate _ _ _ T) as [c ->].
    rewrite unique_violation_classified. eexists. split; reflexivity.
Qed.

Lemma createTodoList_false_on_unique_violation_witness :
  (* alice has a list titled Home; she has none titled Errands *)
  (title_taken Sample.db "Home" "alice" = true /\
   exists w',
     createTodoList Sample.alice "Home" Sample.world = (Resolved false, w') /\
     todolists (database w') = todolists (database Sample.world)) /\
  (exists w',
      createTodoList Sample.alice "Errands" Sample.world = (Resolved true, w')) /\
  (* the connection is lost while the statement runs *)
  (exists w',
      createTodoList Sample.alice "Errands"
        (mkWorld Sample.db 0 []
                 [None; Some (mkError "Error" "Connection terminated unexpectedly")]) =
      (Rejected (mkError "Error" "Connection terminated unexpectedly"), w')).
Proof.
  split; [|split].
  - split; [reflexivity|].
    apply (proj2 (proj2 (proj2
      (createTodoList_false_on_unique_violation Sample.alice "Home" Sample.world))));
      reflexivity.
  - eexists.
    refine (proj1 (proj2 (proj2
      (createTodoList_false_on_unique_violation Sample.alice "Errands" Sample.world)))
      _ _ _).
    reflexivity.
  - eexists.
    refine (proj1 (proj2
      (createTodoList_false_on_unique_violation Sample.alice "Errands" _))
      _ _ _ _); reflexivity.
Defined.

(* ================================================================== *)
(** ** dbQuery and the connection *)
(* ================================================================== *)

(** A statement that succeeds leaves as many connections open as there
    were; the error of a statement that fails reaches the caller as the
    store raised it. *)
Lemma dbQuery_statement_outcome R (s : Statement R) (ps : list Value) (w : World) :
  faults w = [] ->
  fst (dbQuery s ps w) = fst (run_statement s ps (database w)).
Proof.
  intros F. rewrite (dbQuery_no_fault _ _ _ F).
  destruct (run_statement s ps (database w)) as [[r|e] db']; reflexivity.
Qed.

(** [client.end()] is skipped when [client.query] rejects. *)
Lemma dbQuery_rejected_keeps_connection R (s : Statement R) (ps : list Value)
      (w : World) (e : Error) (db' : Database) :
  faults w = [] ->
  run_statement s ps (database w) = (Rejected e, db') ->
  exists w', dbQuery s ps w = (Rejected e, w') /\
             connections w' = S (connections w).
Proof.
  intros F RS. rewrite (dbQuery_no_fault _ _ _ F), RS.
  eexists. split; reflexivity.
Qed.

(** C5. The statement of [createTodoList("Home")] for alice, who has a
    list of that title, is rejected by the store: [dbQuery] rejects with
    the error of the store, unmodified, and the connection it opened is
    still open afterwards (one open connection where there was none). *)
Theorem dbQuery_failed_statement_leaves_connection_open :
  connections Sample.world = 0 /\
  dbQuery CREATE_TODOLIST [VStr "Home"; VStr "alice"] Sample.world =
  (Rejected (unique_violation "todolists_username_title_key"),
   mkWorld (next_todolist_id Sample.db) 1
           [(sql_text CREATE_TODOLIST, [VStr "Home"; VStr "alice"])] []) /\
  fst (run_statement CREATE_TODOLIST [VStr "Home"; VStr "alice"] Sample.db) =
  Rejected (unique_violation "todolists_username_title_key").
Proof. repeat split. Qed.

(* ================================================================== *)
(** ** sortedTodos *)
(* ================================================================== *)

Lemma sorted_on_group A (R R' : A -> A -> Prop) (P : A -> Prop) (l : list A) :
  (forall a b, P a -> P b -> R a b -> R' a b) ->
  Forall P l -> StronglySorted R l -> StronglySorted R' l.
Proof.
  intros HR HP S. induction S as [|x l S IH F]; [constructor|].
  inversion HP as [|? ? Px Pl]; subst.
  constructor; [now apply IH|].
  rewrite Forall_forall in *. intros y Hy. apply HR; auto.
Qed.

Lemma filter_all A (p : A -> bool) (l : list A) :
  Forall (fun x => p x = true) l -> filter p l = l.
Proof.
  induction 1 as [|x l Hx _ IH]; simpl; [reflexivity|]. now rewrite Hx, IH.
Qed.

Lemma filter_none A (p : A -> bool) (l : list A) :
  Forall (fun x => p x = false) l -> filter p l = [].
Proof.
  induction 1 as [|x l Hx _ IH]; simpl; [reflexivity|]. now rewrite Hx, IH.
Qed.

(** In a list ordered by [done ASC] the todos that are not done come
    first. *)
Lemma done_asc_splits (l : list Todo) :
  StronglySorted (fun a b => todo_leb a b = true) l ->
  l = filter not_done l ++ filter done l.
Proof.
  induction 1 as [|x l S IH F]; simpl; [reflexivity|].
  unfold not_done at 1. destruct (done x) eqn:Dx; simpl.
  - assert (D : Forall (fun y => done y = true) l).
    { eapply Forall_impl; [|exact F]. intros y. unfold todo_leb. rewrite Dx.
      destruct (done y); [reflexivity | discriminate]. }
    rewrite (filter_all _ D), filter_none; [reflexivity|].
    eapply Forall_impl; [|exact D]. intros y Hy. unfold not_done. now rewrite Hy.
  - now rewrite <- IH.
Qed.

Lemma todo_leb_same_done (a b : Todo) :
  done a = done b -> todo_leb a b = true -> todo_title_le a b.
Proof.
  unfold todo_leb, todo_title_le. intros ->. destruct (done b); auto.
Qed.

(** C8. When [sortedTodos(list)] resolves, its rows are exactly the todos
    of the store that belong to that list and to the identity; the todos
    that are not done come before the done ones, and each of the two
    groups is in ascending order of the lower-cased title.  Without a
    fault of the environment the promise resolves. *)
Theorem sortedTodos_undone_first_by_title
        (this : PgPersistence) (todoList : TodoList) (w : World) :
  (forall ts w',
      sortedTodos this todoList w = (Resolved ts, w') ->
      Permutation ts
        (filter (todo_of_list (id todoList) (this_username this))
                (todo_rows (database w))) /\
      ts = filter not_done ts ++ filter done ts /\
      StronglySorted todo_title_le (filter not_done ts) /\
      StronglySorted todo_title_le (filter done ts)) /\
  (faults w = [] ->
   exists ts w', sortedTodos this todoList w = (Resolved ts, w')).
Proof.
  split.
  - intros ts w' H. unfold sortedTodos in H. open_query H r w1 RS.
    injection RS as <- _. injection H as <- _. simpl.
    set (l := filter _ (todo_rows (database w))).
    pose proof (order_by_sorted todo_leb todo_leb_total todo_leb_trans l) as S.
    split; [apply order_by_perm|]. split; [now apply done_asc_splits|].
    split.
    + apply sorted_on_group
        with (R := fun a b => todo_leb a b = true) (P := fun t => done t = false).
      * intros a b Ha Hb. apply todo_leb_same_done. congruence.
      * apply Forall_forall. intros t Ht. apply filter_In in Ht.
        destruct Ht as [_ Ht]. unfold not_done in Ht. now destruct (done t).
      * now apply filter_sorted.
    + apply sorted_on_group
        with (R := fun a b => todo_leb a b = true) (P := fun t => done t = true).
      * intros a b Ha Hb. apply todo_leb_same_done. congruence.
      * apply Forall_forall. intros t Ht. apply filter_In in Ht. tauto.
      * now apply filter_sorted.
  - intros F. unfold sortedTodos. run_no_fault F. eauto.
Qed.

Lemma sortedTodos_undone_first_by_title_witness :
  exists w',
    sortedTodos Sample.alice Sample.work Sample.world =
    (Resolved [mkTodo 2 "Answer mail" false 1 "alice";
               mkTodo 6 "call home" false 1 "alice";
               mkTodo 1 "buy milk" true 1 "alice";
               mkTodo 5 "Zip files" true 1 "alice"], w') /\
    StronglySorted todo_title_le
      (filter done [mkTodo 2 "Answer mail" false 1 "alice";
                    mkTodo 6 "call home" false 1 "alice";
                    mkTodo 1 "buy milk" true 1 "alice";
                    mkTodo 5 "Zip files" true 1 "alice"]).
Proof.
  eexists. split; [reflexivity|].
  refine (proj2 (proj2 (proj2
    (proj1 (sortedTodos_undone_first_by_title Sample.alice Sample.work Sample.world)
           _ _ eq_refl)))).
Defined.

(* ================================================================== *)
(** ** sortedTodoLists *)
(* ================================================================== *)

Lemma partition_loop (l done_ undone : list TodoList) :
  fold_left partition_step l (done_, undone) =
  (done_ ++ filter isDoneTodoList l, undone ++ filter isUndoneTodoList l).
Proof.
  revert done_ undone. induction l as [|x l IH]; intros d u; simpl.
  - now rewrite !app_nil_r.
  - unfold isUndoneTodoList at 1. destruct (isDoneTodoList x); simpl; rewrite IH.
    + now rewrite <- app_assoc.
    + now rewrite <- app_assoc.
Qed.

(** The partition is stable: each group keeps the order of the input. *)
Lemma _partitionTodoLists_stable (l : list TodoList) :
  _partitionTodoLists l = filter isUndoneTodoList l ++ filter isDoneTodoList l.
Proof. unfold _partitionTodoLists. rewrite partition_loop. reflexivity. Qed.

Lemma partition_perm A (p : A -> bool) (l : list A) :
  Permutation (filter (fun x => negb (p x)) l ++ filter p l) l.
Proof.
  induction l as [|x l IH]; simpl; [reflexivity|].
  destruct (p x); simpl.
  - rewrite <- Permutation_middle. now constructor.
  - now constructor.
Qed.

Lemma map_sorted A B (f : A -> B) (R : B -> B -> Prop) (l : list A) :
  StronglySorted (fun a b => R (f a) (f b)) l -> StronglySorted R (map f l).
Proof.
  induction 1 as [|x l S IH F]; simpl; constructor; [exact IH|].
  apply Forall_map. exact F.
Qed.

Lemma list_leb_total (a b : TodoListRow) : list_leb a b = true \/ list_leb b a = true.
Proof. apply title_leb_total. Qed.

Lemma list_leb_trans (a b c : TodoListRow) :
  list_leb a b = true -> list_leb b c = true -> list_leb a c = true.
Proof. apply title_leb_trans. Qed.

Lemma fetched_lists_sorted (u : string) (db : Database) :
  StronglySorted list_title_le (fetched_lists u db).
Proof.
  unfold fetched_lists. apply map_sorted.
  apply (order_by_sorted list_leb list_leb_total list_leb_trans).
Qed.

(** What [sortedTodoLists] resolves to. *)
Lemma sortedTodoLists_resolved (this : PgPersistence) (w w' : World)
      (ls : list TodoList) :
  sortedTodoLists this w = (Resolved ls, w') ->
  ls = _partitionTodoLists (fetched_lists (this_username this) (database w)).
Proof.
  unfold sortedTodoLists, bind, ret. intros H.
  destruct (Promise_all _ _ w) as [[both|e] w1] eqn:P; [|discriminate].
  apply Promise_all_resolved in P. destruct P as [w0 [P1 P2]].
  apply dbQuery_resolved in P1. destruct P1 as [RS1 _]. simpl in RS1.
  apply dbQuery_resolved in P2. destruct P2 as [RS2 _]. simpl in RS2.
  injection RS1 as E1 D1. injection RS2 as E2 _.
  injection H as <- _. rewrite <- E1, <- E2, <- D1. reflexivity.
Qed.

Lemma sortedTodoLists_no_fault (this : PgPersistence) (w : World) :
  faults w = [] ->
  exists ls w', sortedTodoLists this w = (Resolved ls, w').
Proof.
  intros F. unfold sortedTodoLists, bind, ret, Promise_all.
  rewrite (dbQuery_no_fault _ _ _ F). cbn [run_statement].
  rewrite dbQuery_no_fault by reflexivity. cbn [run_statement]. eauto.
Qed.

(** C3. When [sortedTodoLists()] resolves, the result holds all the lists
    of the identity, each with its todos; the lists that are not fully
    done come first and the fully done ones after them, each group in the
    order in which the lists were fetched, which is the ascending order of
    the lower-cased title.  Without a fault of the environment the promise
    resolves. *)
Theorem sortedTodoLists_undone_first_stable (this : PgPersistence) (w : World) :
  let u := this_username this in
  let fetched := fetched_lists u (database w) in
  (forall ls w',
      sortedTodoLists this w = (Resolved ls, w') ->
      Permutation ls
        (map (list_with_its_todos u (database w))
             (filter (list_of_user u) (todolists (database w)))) /\
      ls = filter isUndoneTodoList fetched ++ filter isDoneTodoList fetched /\
      StronglySorted list_title_le (filter isUndoneTodoList fetched) /\
      StronglySorted list_title_le (filter isDoneTodoList fetched)) /\
  (faults w = [] -> exists ls w', sortedTodoLists this w = (Resolved ls, w')).
Proof.
  intros u fetched. split; [|apply sortedTodoLists_no_fault].
  intros ls w' H. apply sortedTodoLists_resolved in H.
  rewrite _partitionTodoLists_stable in H. fold u fetched in H. subst ls.
  split; [|split; [reflexivity|]].
  - unfold isUndoneTodoList. rewrite partition_perm.
    unfold fetched, fetched_lists. apply Permutation_map, order_by_perm.
  - split; apply (filter_sorted (fun a b => title_leb (title a) (title b)));
      apply fetched_lists_sorted.
Qed.

Lemma sortedTodoLists_undone_first_stable_witness :
  exists w',
    sortedTodoLists Sample.alice Sample.world =
    (Resolved
       [mkTodoList 4 "Alpha" "alice" [];
        mkTodoList 1 "work" "alice"
          [mkTodo 1 "buy milk" true 1 "alice"; mkTodo 2 "Answer mail" false 1 "alice";
           mkTodo 5 "Zip files" true 1 "alice"; mkTodo 6 "call home" false 1 "alice"];
        mkTodoList 2 "Home" "alice" [mkTodo 3 "sweep" true 2 "alice"]], w') /\
    StronglySorted list_title_le
      (filter isUndoneTodoList (fetched_lists "alice" Sample.db)).
Proof.
  eexists. split; [reflexivity|].
  refine (proj1 (proj2 (proj2
    (proj1 (sortedTodoLists_undone_first_stable Sample.alice Sample.world)
           _ _ eq_refl)))).
Defined.

(* ================================================================== *)
(** ** Isolation of identities *)
(* ================================================================== *)

Lemma todos_of_other (a b : string) (l : list Todo) :
  a <> b -> todos_of b l -> no_todo_of a l.
Proof.
  intros N. unfold todos_of, no_todo_of. apply Forall_impl. congruence.
Qed.

Lemma lists_of_other (a b : string) (ls : list TodoList) :
  a <> b -> lists_of b ls -> no_list_of a ls.
Proof.
  intros N. unfold lists_of, no_list_of. apply Forall_impl.
  intros l [H1 H2]. split; [congruence | now apply todos_of_other with b].
Qed.

Lemma filter_todo_of_user (u : string) (l : list Todo) :
  todos_of u (filter (todo_of_user u) l).
Proof.
  apply Forall_forall. intros t Ht. apply filter_In in Ht.
  destruct Ht as [_ Ht]. now apply todo_of_user_true.
Qed.

Lemma filter_todo_of_list (i : Z) (u : string) (l : list Todo) :
  todos_of u (filter (todo_of_list i u) l).
Proof.
  apply Forall_forall. intros t Ht. apply filter_In in Ht.
  destruct Ht as [_ Ht]. now apply todo_of_list_true in Ht.
Qed.

Lemma filter_todo_with_id (i j : Z) (u : string) (l : list Todo) :
  todos_of u (filter (todo_with_id i j u) l).
Proof.
  apply Forall_forall. intros t Ht. apply filter_In in Ht.
  destruct Ht as [_ Ht]. now apply todo_with_id_true in Ht.
Qed.

Lemma todos_of_filter (u : string) (p : Todo -> bool) (l : list Todo) :
  todos_of u l -> todos_of u (filter p l).
Proof.
  unfold todos_of. rewrite !Forall_forall. intros H t Ht.
  apply filter_In in Ht. now apply H.
Qed.

Lemma fetched_lists_owned (u : string) (db : Database) :
  lists_of u (fetched_lists u db).
Proof.
  apply Forall_forall. intros l Hl. unfold fetched_lists in Hl.
  apply in_map_iff in Hl. destruct Hl as [r [<- Hr]].
  apply order_by_In in Hr. apply filter_In in Hr. destruct Hr as [_ Hr].
  apply list_of_user_true in Hr. split; [exact Hr|].
  simpl. apply todos_of_filter, filter_todo_of_user.
Qed.

Lemma sortedTodoLists_owned (this : PgPersistence) (w w' : World)
      (ls : list TodoList) :
  sortedTodoLists this w = (Resolved ls, w') -> lists_of (this_username this) ls.
Proof.
  intros H. apply sortedTodoLists_resolved in H.
  rewrite _partitionTodoLists_stable in H. subst ls.
  pose proof (fetched_lists_owned (this_username this) (database w)) as O.
  unfold lists_of in *. rewrite Forall_forall in *. intros l Hl.
  apply in_app_or in Hl. destruct Hl as [Hl|Hl]; apply filter_In in Hl; now apply O.
Qed.

Lemma loadTodoList_owned (this : PgPersistence) (todoListId : Z) (w w' : World)
      (l : TodoList) :
  loadTodoList this todoListId w = (Resolved (Some l), w') ->
  lists_of (this_username this) [l] /\ id l = todoListId.
Proof.
  unfold loadTodoList, bind, ret. intros H.
  destruct (Promise_all _ _ w) as [[both|e] w1] eqn:P; [|discriminate].
  apply Promise_all_resolved in P. destruct P as [w0 [P1 P2]].
  apply dbQuery_resolved in P1. destruct P1 as [RS1 _]. simpl in RS1.
  apply dbQuery_resolved in P2. destruct P2 as [RS2 _]. simpl in RS2.
  injection RS1 as E1 D1. injection RS2 as E2 _.
  rewrite <- E1, <- E2 in H. simpl in H.
  destruct (filter (list_with_id _ _) _) as [|r rest] eqn:L; [discriminate|].
  injection H as <- _.
  assert (Hr : In r (filter (list_with_id todoListId (this_username this))
                            (todolists (database w)))) by (rewrite L; now left).
  apply filter_In in Hr. destruct Hr as [_ Hr]. apply list_with_id_true in Hr.
  destruct Hr as [Hi Hu]. split; [|exact Hi].
  constructor; [|constructor]. split; [exact Hu|]. apply filter_todo_of_list.
Qed.

Lemma loadTodo_owned (this : PgPersistence) (todoListId todoId : Z) (w w' : World)
      (t : Todo) :
  loadTodo this todoListId todoId w = (Resolved (Some t), w') ->
  todos_of (this_username this) [t].
Proof.
  intros H. unfold loadTodo in H. open_query H r w1 RS.
  injection RS as <- _. injection H as H _. simpl in H.
  pose proof (filter_todo_with_id todoListId todoId (this_username this)
                (todo_rows (database w))) as O.
  destruct (filter _ _) as [|x rest]; [discriminate|].
  injection H as <-. inversion O; subst. now repeat constructor.
Qed.

Lemma sortedTodos_owned (this : PgPersistence) (todoList : TodoList) (w w' : World)
      (ts : list Todo) :
  sortedTodos this todoList w = (Resolved ts, w') ->
  todos_of (this_username this) ts.
Proof.
  intros H. unfold sortedTodos in H. open_query H r w1 RS.
  injection RS as <- _. injection H as <- _. simpl.
  apply Forall_forall. intros t Ht. apply order_by_In in Ht.
  pose proof (filter_todo_of_list (id todoList) (this_username this)
                (todo_rows (database w))) as O.
  unfold todos_of in O. rewrite Forall_forall in O. now apply O.
Qed.

(** The rows that [createTodoList] adds carry the identity of the service
    that created them (for [addTodo] see C10). *)
Lemma createTodoList_inserts_under_identity (this : PgPersistence) (title : string)
      (w w' : World) :
  createTodoList this title w = (Resolved true, w') ->
  todolists (database w') =
  todolists (database w) ++
  [mkTodoListRow (todolists_id_seq (database w)) title (this_username this)].
Proof.
  unfold createTodoList, try_catch, bind, ret. intros H.
  destruct (dbQuery _ _ w) as [[r|e] w1] eqn:Q.
  - apply dbQuery_resolved in Q. destruct Q as [RS _]. simpl in RS.
    injection H as _ <-. unfold insert_todolist in RS.
    destruct (list_exists _ _); [discriminate|].
    destruct (title_taken _ _ _); [discriminate|].
    destruct (negb _); [discriminate|].
    injection RS as _ <-. reflexivity.
  - destruct (isUniqueConstraintViolation e); discriminate.
Qed.

(** C1. For distinct identities A and B, a service constructed with B
    returns no row of A from any of its reads: what [sortedTodoLists],
    [loadTodoList], [loadTodo] and [sortedTodos] resolve to consists of
    rows whose username is B, lists and todos alike. *)
Theorem reads_return_only_rows_of_identity
        (A B : string) (this : PgPersistence) (w : World) :
  A <> B ->
  this_username this = B ->
  (forall ls w',
      sortedTodoLists this w = (Resolved ls, w') ->
      lists_of B ls /\ no_list_of A ls) /\
  (forall todoListId l w',
      loadTodoList this todoListId w = (Resolved (Some l), w') ->
      lists_of B [l] /\ no_list_of A [l]) /\
  (forall todoListId todoId t w',
      loadTodo this todoListId todoId w = (Resolved (Some t), w') ->
      todos_of B [t] /\ no_todo_of A [t]) /\
  (forall todoList ts w',
      sortedTodos this todoList w = (Resolved ts, w') ->
      todos_of B ts /\ no_todo_of A ts).
Proof.
  intros N <-. repeat split.
  - eapply sortedTodoLists_owned; eauto.
  - eapply lists_of_other; eauto using sortedTodoLists_owned.
  - eapply loadTodoList_owned; eauto.
  - eapply lists_of_other; [exact N|]. eapply loadTodoList_owned; eauto.
  - eapply loadTodo_owned; eauto.
  - eapply todos_of_other; eauto using loadTodo_owned.
  - eapply sortedTodos_owned; eauto.
  - eapply todos_of_other; eauto using sortedTodos_owned.
Qed.

Lemma reads_return_only_rows_of_identity_witness :
  (* list 1 and its todos belong to alice; bob asks for them *)
  "alice" <> "bob" /\
  (exists w', loadTodoList Sample.bob 1 Sample.world = (Resolved None, w')) /\
  (exists w', sortedTodos Sample.bob Sample.work Sample.world = (Resolved [], w')) /\
  exists ls w',
    sortedTodoLists Sample.bob Sample.world = (Resolved ls, w') /\
    lists_of "bob" ls /\ no_list_of "alice" ls.
Proof.
  assert (N : "alice" <> "bob") by discriminate.
  split; [exact N|]. split; [eexists; reflexivity|]. split; [eexists; reflexivity|].
  eexists. eexists. split; [reflexivity|].
  refine (proj1 (reads_return_only_rows_of_identity
                   Sample.bob Sample.world N eq_refl) _ _ eq_refl).
Defined.


(* ================================================================== *)
(** ** The query executor under faults *)
(* ================================================================== *)

Lemma select_keeps_store R (s : Statement R) (ps : list Value) (db : Database) :
  is_select s = true -> snd (run_statement s ps db) = db.
Proof.
  destruct s; try discriminate; intros _; simpl;
    repeat (match goal with
            | |- context [match ?x with _ => _ end] => destruct x
            end; simpl; try reflexivity).
Qed.

(** X1. Every run of [dbQuery] is one of these: [connect] fails, and then
    nothing is logged, no statement runs and no connection is open that
    was not; or the statement is logged once, and then either [query] is
    failed by the environment before the store saw the statement, or the
    statement ran: its rejection is the rejection of [dbQuery], and its
    result is the result of [dbQuery] unless [end] fails.  The connection
    is ended only in the run that resolves. *)
Theorem dbQuery_runs R (s : Statement R) (ps : list Value) (w : World) :
  let o := fst (dbQuery s ps w) in
  let w' := snd (dbQuery s ps w) in
  ((exists e, o = Rejected e) /\
   database w' = database w /\ connections w' = connections w /\
   console w' = console w) \/
  (console w' = (sql_text s, ps) :: console w /\
   (((exists e, o = Rejected e) /\
     database w' = database w /\ connections w' = S (connections w)) \/
    (database w' = snd (run_statement s ps (database w)) /\
     match fst (run_statement s ps (database w)) with
     | Rejected e => o = Rejected e /\ connections w' = S (connections w)
     | Resolved r =>
         (o = Resolved r /\ connections w' = connections w) \/
         ((exists e, o = Rejected e) /\ connections w' = S (connections w))
     end))).
Proof.
  destruct w as [db n c fs]. cbv zeta.
  unfold dbQuery, bind, ret, logQuery, Client.connect, Client.query, Client.end_,
    Client.fallible, Client.set_faults; simpl.
  destruct fs as [|[e1|] fs]; simpl.
  - right. split; [destruct (run_statement s ps db) as [[r|e] db']; reflexivity|].
    right. destruct (run_statement s ps db) as [[r|e] db']; simpl; auto.
  - left. eauto.
  - destruct fs as [|[e2|] fs]; simpl.
    + right. split; [destruct (run_statement s ps db) as [[r|e] db']; reflexivity|].
      right. destruct (run_statement s ps db) as [[r|e] db']; simpl; auto.
    + right. split; [reflexivity|]. left. eauto.
    + destruct (run_statement s ps db) as [[r|e] db'] eqn:RS; simpl.
      * destruct fs as [|[e3|] fs]; simpl; right; (split; [reflexivity|]);
          right; (split; [reflexivity|]); eauto.
      * right. split; [reflexivity|]. right. auto.
Qed.

Lemma dbQuery_store R (s : Statement R) (ps : list Value) (w : World) :
  database (snd (dbQuery s ps w)) = database w \/
  database (snd (dbQuery s ps w)) = snd (run_statement s ps (database w)).
Proof.
  destruct w as [db n c fs].
  unfold dbQuery, bind, ret, logQuery, Client.connect, Client.query, Client.end_,
    Client.fallible, Client.set_faults; simpl.
  destruct fs as [|[e1|] [|[e2|] fs]]; simpl; auto;
    destruct (run_statement s ps db) as [[r|e] db']; simpl; auto.
  destruct fs as [|[e3|] fs]; simpl; auto.
Qed.

(* ------------------------------------------------------------------ *)
(** *** Computations that keep the store *)

Lemma keeps_store_ret A (a : A) : keeps_store (ret a).
Proof. intros w. reflexivity. Qed.

Lemma keeps_store_throw A (e : Error) : keeps_store (@throw A e).
Proof. intros w. reflexivity. Qed.

Lemma keeps_store_bind A B (m : Async A) (k : A -> Async B) :
  keeps_store m -> (forall a, keeps_store (k a)) -> keeps_store (bind m k).
Proof.
  intros Hm Hk w. unfold bind. specialize (Hm w).
  destruct (m w) as [[a|e] w1]; simpl in *; [|exact Hm].
  now rewrite Hk.
Qed.

Lemma keeps_store_all A B (p : Async A) (q : Async B) :
  keeps_store p -> keeps_store q -> keeps_store (Promise_all p q).
Proof.
  intros Hp Hq w. unfold Promise_all. specialize (Hp w).
  destruct (p w) as [a w1]. specialize (Hq w1).
  destruct (q w1) as [b w2]. simpl in *.
  destruct a, b; simpl; congruence.
Qed.

Lemma keeps_store_select R (s : Statement R) (ps : list Value) :
  is_select s = true -> keeps_store (dbQuery s ps).
Proof.
  intros S w. destruct (dbQuery_store s ps w) as [H|H]; [exact H|].
  now rewrite H, select_keeps_store.
Qed.

Create HintDb store.
#[local] Hint Resolve keeps_store_ret keeps_store_throw keeps_store_all : store.

(** X2. The reads never write: however [authenticated],
    [sortedTodoLists], [sortedTodos], [loadTodoList], [loadTodo] and
    [existsTodoListTitle] settle, and whatever the environment does to
    their connections, the store is afterwards what it was before. *)
Theorem reads_keep_store (bcrypt_compare : string -> string -> bool)
        (this : PgPersistence) :
  (forall username password,
      keeps_store (authenticated bcrypt_compare this username password)) /\
  keeps_store (sortedTodoLists this) /\
  (forall todoList, keeps_store (sortedTodos this todoList)) /\
  (forall todoListId, keeps_store (loadTodoList this todoListId)) /\
  (forall todoListId todoId, keeps_store (loadTodo this todoListId todoId)) /\
  (forall title, keeps_store (existsTodoListTitle this title)).
Proof.
  repeat split; intros;
    unfold authenticated, sortedTodoLists, sortedTodos, loadTodoList, loadTodo,
      existsTodoListTitle;
    apply keeps_store_bind;
    try (apply keeps_store_all);
    try (apply keeps_store_select; reflexivity);
    intros r; auto with store.
  - destruct (rowCount r =? 0)%nat; auto with store.
    destruct (rows r); auto with store.
  - destruct (rows (fst r)); auto with store.
Qed.

(* ------------------------------------------------------------------ *)
(** *** Computations that end their connections *)

Lemma ends_connections_ret A (a : A) : ends_connections (ret a).
Proof. intros w x w' H. now injection H as _ <-. Qed.

Lemma ends_connections_throw A (e : Error) : ends_connections (@throw A e).
Proof. intros w x w' H. discriminate. Qed.

Lemma ends_connections_bind A B (m : Async A) (k : A -> Async B) :
  ends_connections m -> (forall a, ends_connections (k a)) ->
  ends_connections (bind m k).
Proof.
  intros Hm Hk w b w'. unfold bind.
  destruct (m w) as [[a|e] w1] eqn:E; [|discriminate].
  intros H. rewrite (Hk _ _ _ _ H). exact (Hm _ _ _ E).
Qed.

Lemma ends_connections_all A B (p : Async A) (q : Async B) :
  ends_connections p -> ends_connections q -> ends_connections (Promise_all p q).
Proof.
  intros Hp Hq w x w' H. apply Promise_all_resolved in H.
  destruct H as [w1 [H1 H2]]. rewrite (Hq _ _ _ H2). exact (Hp _ _ _ H1).
Qed.

Lemma ends_connections_dbQuery R (s : Statement R) (ps : list Value) :
  ends_connections (dbQuery s ps).
Proof. intros w r w' H. now apply dbQuery_resolved in H. Qed.

#[local] Hint Resolve ends_connections_ret ends_connections_throw
  ends_connections_all ends_connections_dbQuery : store.

(** X3. A method that resolves has ended the connections it opened: this
    holds for every method of the service but [createTodoList], and for
    [createTodoList] when it resolves to true. *)
Theorem resolved_methods_end_connections
        (bcrypt_compare : string -> string -> bool) (this : PgPersistence) :
  (forall username password,
      ends_connections (authenticated bcrypt_compare this username password)) /\
  ends_connections (sortedTodoLists this) /\
  (forall todoList, ends_connections (sortedTodos this todoList)) /\
  (forall todoListId, ends_connections (loadTodoList this todoListId)) /\
  (forall todoListId todoId,
      ends_connections (toggleDoneTodo this todoListId todoId)) /\
  (forall todoListId todoId, ends_connections (loadTodo this todoListId todoId)) /\
  (forall todoListId todoId,
      ends_connections (removeTodoFromTodoList this todoListId todoId)) /\
  (forall todoListId, ends_connections (markAllDone this todoListId)) /\
  (forall todoTitle todoListId,
      ends_connections (addTodo this todoTitle todoListId)) /\
  (forall todoListId, ends_connections (deleteTodoList this todoListId)) /\
  (forall title, ends_connections (existsTodoListTitle this title)) /\
  (forall todoListId title, ends_connections (setTitle this todoListId title)) /\
  (forall title w w',
      createTodoList this title w = (Resolved true, w') ->
      connections w' = connections w).
Proof.
  repeat split; intros;
    try (unfold authenticated, sortedTodoLists, sortedTodos, loadTodoList,
           toggleDoneTodo, loadTodo, removeTodoFromTodoList, markAllDone,
           addTodo, deleteTodoList, existsTodoListTitle, setTitle;
         apply ends_connections_bind; auto with store; intros r; auto with store).
  - destruct (rowCount r =? 0)%nat; auto with store.
    destruct (rows r); auto with store.
  - destruct (rows (fst r)); auto with store.
  - unfold createTodoList, try_catch, bind, ret in H.
    destruct (dbQuery _ _ w) as [[r|e] w1] eqn:Q.
    + injection H as _ <-. now apply dbQuery_resolved in Q.
    + destruct (isUniqueConstraintViolation e); discriminate.
Qed.

Lemma resolved_methods_end_connections_witness :
  exists w',
    createTodoList Sample.alice "Errands" Sample.world = (Resolved true, w') /\
    connections w' = connections Sample.world.
Proof.
  eexists. split; [reflexivity|].
  refine (proj2 (proj2 (proj2 (proj2 (proj2 (proj2 (proj2 (proj2 (proj2 (proj2
    (proj2 (proj2
      (resolved_methods_end_connections Sample.compare Sample.alice))))))))))))
    "Errands" Sample.world _ eq_refl).
Defined.

(** X4. [createTodoList] is the exception: without a fault of the
    environment, a title that the identity already uses makes it resolve to
    false with the connection of the rejected insert still open, since
    [dbQuery] does not reach [client.end()]. *)
Theorem createTodoList_duplicate_keeps_connection
        (this : PgPersistence) (title : string) (w : World) :
  faults w = [] ->
  title_taken (database w) title (this_username this) = true ->
  exists w',
    createTodoList this title w = (Resolved false, w') /\
    connections w' = S (connections w).
Proof.
  intros F T. unfold createTodoList, try_catch, bind, ret.
  rewrite (dbQuery_no_fault _ _ _ F). simpl.
  destruct (insert_todolist_duplicate _ _ _ T) as [c ->].
  rewrite unique_violation_classified. eexists. split; reflexivity.
Qed.

Lemma createTodoList_duplicate_keeps_connection_witness :
  exists w',
    createTodoList Sample.alice "Home" Sample.world = (Resolved false, w') /\
    connections w' = 1.
Proof.
  apply (createTodoList_duplicate_keeps_connection Sample.alice "Home" Sample.world);
    reflexivity.
Defined.

(* ================================================================== *)
(** ** isUniqueConstraintViolation *)
(* ================================================================== *)

Lemma prefix_split (p s : string) :
  String.prefix p s = true -> exists b, s = (p ++ b)%string.
Proof.
  revert s. induction p as [|c p IH]; intros s H.
  - now exists s.
  - destruct s as [|d s]; simpl in H; [discriminate|].
    destruct (ascii_dec c d) as [<-|]; [|discriminate].
    destruct (IH s H) as [b ->]. now exists b.
Qed.

Lemma includes_split (p s : string) :
  Str.includes p s = true -> exists a b, s = (a ++ p ++ b)%string.
Proof.
  induction s as [|c s IH]; cbn [Str.includes]; intros H.
  - apply prefix_split in H. destruct H as [b ->]. now exists EmptyString, b.
  - apply orb_true_iff in H. destruct H as [H|H].
    + apply prefix_split in H. destruct H as [b ->]. now exists EmptyString, b.
    + destruct (IH H) as [a [b ->]]. now exists (String c a), b.
Qed.

(** X5. [isUniqueConstraintViolation(error)] is true exactly when the
    text [duplicate key value violates unique constraint] occurs somewhere
    in [String(error)]; the error of PostgreSQL for a duplicate key is
    recognised whatever the name of the constraint. *)
Theorem isUniqueConstraintViolation_iff_occurs :
  (forall error : Error,
      isUniqueConstraintViolation error = true <->
      exists before after : string,
        String_of_error error =
        (before ++ "duplicate key value violates unique constraint" ++ after)%string) /\
  (forall constraint : string,
      isUniqueConstraintViolation (unique_violation constraint) = true).
Proof.
  split; [|apply unique_violation_classified].
  intros error. unfold isUniqueConstraintViolation. split.
  - apply includes_split.
  - intros [a [b ->]]. apply includes_app.
Qed.

(* ================================================================== *)
(** ** loadTodoList and loadTodo *)
(* ================================================================== *)

Lemma filter_nil_none A (p : A -> bool) (l : list A) :
  filter p l = [] -> forall x, In x l -> p x = false.
Proof.
  intros H x Hx. destruct (p x) eqn:E; [|reflexivity].
  assert (I : In x (filter p l)) by (apply filter_In; auto).
  rewrite H in I. contradiction.
Qed.

Lemma filter_head A (p : A -> bool) (l : list A) (x : A) (rest : list A) :
  filter p l = x :: rest -> In x l /\ p x = true.
Proof.
  intros H. apply filter_In. rewrite H. now left.
Qed.

Lemma loadTodoList_resolved (this : PgPersistence) (todoListId : Z) (w w' : World)
      (o : option TodoList) :
  loadTodoList this todoListId w = (Resolved o, w') ->
  o = match filter (list_with_id todoListId (this_username this))
                   (todolists (database w)) with
      | [] => None
      | r :: _ =>
          Some (with_list_todos r
                  (filter (todo_of_list todoListId (this_username this))
                          (todo_rows (database w))))
      end.
Proof.
  unfold loadTodoList, bind, ret. intros H.
  destruct (Promise_all _ _ w) as [[both|e] w1] eqn:P; [|discriminate].
  apply Promise_all_resolved in P. destruct P as [w0 [P1 P2]].
  apply dbQuery_resolved in P1. destruct P1 as [RS1 _]. simpl in RS1.
  apply dbQuery_resolved in P2. destruct P2 as [RS2 _]. simpl in RS2.
  injection RS1 as E1 D1. injection RS2 as E2 _.
  rewrite <- E1, <- E2, <- D1 in H. simpl in H.
  destruct (filter (list_with_id _ _) _) as [|r rest]; now injection H as <- _.
Qed.

Lemma loadTodoList_no_fault (this : PgPersistence) (todoListId : Z) (w : World) :
  faults w = [] ->
  exists o w', loadTodoList this todoListId w = (Resolved o, w').
Proof.
  intros F. unfold loadTodoList, bind, ret, Promise_all.
  rewrite (dbQuery_no_fault _ _ _ F). cbn [run_statement].
  rewrite dbQuery_no_fault by reflexivity. cbn [run_statement].
  cbn [fst snd rows select].
  destruct (filter (list_with_id _ _) _); eauto.
Qed.

(** X6. When [loadTodoList(todoListId)] resolves: to [undefined] if the
    store has no list with that id for the identity (so also for the id of
    a list of somebody else); otherwise to a list row of the store with
    that id and the identity as owner, whose [todos] are the todos of
    the store with that list id and that identity, in the order of the
    table.  Without a fault of the environment the promise resolves. *)
Theorem loadTodoList_finds_own_list
        (this : PgPersistence) (todoListId : Z) (w : World) :
  let u := this_username this in
  (forall o w',
      loadTodoList this todoListId w = (Resolved o, w') ->
      match o with
      | None =>
          forall r, In r (todolists (database w)) ->
                    ~ (row_id r = todoListId /\ row_username r = u)
      | Some l =>
          In (mkTodoListRow (id l) (title l) (username l)) (todolists (database w)) /\
          id l = todoListId /\ username l = u /\
          todos l = filter (todo_of_list todoListId u) (todo_rows (database w))
      end) /\
  (faults w = [] -> exists o w', loadTodoList this todoListId w = (Resolved o, w')).
Proof.
  intros u. split; [|apply loadTodoList_no_fault].
  intros o w' H. apply loadTodoList_resolved in H. fold u in H.
  destruct (filter (list_with_id todoListId u) _) as [|r rest] eqn:L; subst o.
  - intros r Hr M. apply list_with_id_true in M.
    rewrite (filter_nil_none _ _ L r Hr) in M. discriminate.
  - apply filter_head in L. destruct L as [Hr M].
    apply list_with_id_true in M. destruct M as [Mi Mu].
    simpl. destruct r; simpl in *. auto.
Qed.

Lemma loadTodoList_finds_own_list_witness :
  (* list 3 is bob's *)
  (exists w', loadTodoList Sample.alice 3 Sample.world = (Resolved None, w')) /\
  forall r, In r (todolists (database Sample.world)) ->
            ~ (row_id r = 3%Z /\ row_username r = "alice").
Proof.
  split; [eexists; reflexivity|].
  refine (proj1 (loadTodoList_finds_own_list Sample.alice 3 Sample.world)
                None _ eq_refl).
Defined.

Lemma loadTodo_resolved (this : PgPersistence) (todoListId todoId : Z)
      (w w' : World) (o : option Todo) :
  loadTodo this todoListId todoId w = (Resolved o, w') ->
  o = hd_error (filter (todo_with_id todoListId todoId (this_username this))
                       (todo_rows (database w))).
Proof.
  intros H. unfold loadTodo in H. open_query H r w1 RS.
  injection RS as <- _. now injection H as <- _.
Qed.

(** X7. When [loadTodo(todoListId, todoId)] resolves: to [undefined] if no
    todo of the store has that id in that list for the identity; otherwise
    to a todo of the store with that id, in that list, owned by the
    identity.  Without a fault of the environment the promise resolves. *)
Theorem loadTodo_finds_own_todo
        (this : PgPersistence) (todoListId todoId : Z) (w : World) :
  let u := this_username this in
  (forall o w',
      loadTodo this todoListId todoId w = (Resolved o, w') ->
      match o with
      | None =>
          forall t, In t (todo_rows (database w)) ->
                    ~ (todolist_id t = todoListId /\ todo_id t = todoId /\
                       todo_username t = u)
      | Some t =>
          In t (todo_rows (database w)) /\
          todolist_id t = todoListId /\ todo_id t = todoId /\ todo_username t = u
      end) /\
  (faults w = [] -> exists o w', loadTodo this todoListId todoId w = (Resolved o, w')).
Proof.
  intros u. split.
  - intros o w' H. apply loadTodo_resolved in H. fold u in H.
    destruct (filter (todo_with_id todoListId todoId u) _) as [|t rest] eqn:L;
      subst o; simpl.
    + intros t Ht M. apply todo_with_id_true in M.
      rewrite (filter_nil_none _ _ L t Ht) in M. discriminate.
    + apply filter_head in L. destruct L as [Ht M].
      apply todo_with_id_true in M. tauto.
  - intros F. unfold loadTodo. run_no_fault F. eauto.
Qed.

Lemma loadTodo_finds_own_todo_witness :
  (* todo 4 is in list 3, not in list 1 *)
  (exists w', loadTodo Sample.alice 1 4 Sample.world = (Resolved None, w')) /\
  forall t, In t (todo_rows (database Sample.world)) ->
            ~ (todolist_id t = 1%Z /\ todo_id t = 4%Z /\ todo_username t = "alice").
Proof.
  split; [eexists; reflexivity|].
  refine (proj1 (loadTodo_finds_own_todo Sample.alice 1 4 Sample.world)
                None _ eq_refl).
Defined.

(* ================================================================== *)
(** ** removeTodoFromTodoList and deleteTodoList *)
(* ================================================================== *)

Lemma delete_where_none A (p : A -> bool) (l : list A) :
  existsb p l = false -> delete_where p l = l.
Proof.
  unfold delete_where. induction l as [|x l IH]; simpl; [reflexivity|].
  intros H. apply orb_false_iff in H. destruct H as [Hx Hl].
  now rewrite Hx, (IH Hl).
Qed.

Lemma delete_where_gone A (p : A -> bool) (l : list A) :
  filter p (delete_where p l) = [].
Proof.
  unfold delete_where. induction l as [|x l IH]; simpl; [reflexivity|].
  destruct (p x) eqn:E; simpl; [exact IH|]. now rewrite E.
Qed.

(** X8. When [removeTodoFromTodoList(todoListId, todoId)] resolves, the
    result is true if and only if a todo matched the list id, the todo id
    and the identity; the matching rows are gone and every other row is
    kept, in its place; a [loadTodo] of the same ids that follows resolves
    to [undefined].  Without a fault of the environment the promise
    resolves. *)
Theorem removeTodoFromTodoList_removes_matching
        (this : PgPersistence) (todoListId todoId : Z) (w : World) :
  let matches := todo_with_id todoListId todoId (this_username this) in
  (forall b w',
      removeTodoFromTodoList this todoListId todoId w = (Resolved b, w') ->
      (b = true <-> exists t, In t (todo_rows (database w)) /\ matches t = true) /\
      database w' =
      with_todos (database w)
                 (filter (fun t => negb (matches t)) (todo_rows (database w))) /\
      (forall o w'',
          loadTodo this todoListId todoId w' = (Resolved o, w'') -> o = None)) /\
  (faults w = [] ->
   exists b w', removeTodoFromTodoList this todoListId todoId w = (Resolved b, w')).
Proof.
  intros matches. split.
  - intros b w' H. unfold removeTodoFromTodoList in H. open_query H r w1 RS.
    injection RS as <- E. injection H as <- <-. simpl.
    rewrite count_where_pos. fold matches in E |- *.
    split; [apply existsb_exists|]. split; [symmetry; exact E|].
    intros o w'' L. apply loadTodo_resolved in L. rewrite <- E in L. simpl in L.
    fold matches in L. rewrite delete_where_gone in L. exact L.
  - intros F. unfold removeTodoFromTodoList. run_no_fault F. eauto.
Qed.

Lemma removeTodoFromTodoList_removes_matching_witness :
  exists w',
    removeTodoFromTodoList Sample.alice 1 2 Sample.world = (Resolved true, w') /\
    forall o w'', loadTodo Sample.alice 1 2 w' = (Resolved o, w'') -> o = None.
Proof.
  eexists. split; [reflexivity|].
  refine (proj2 (proj2
    (proj1 (removeTodoFromTodoList_removes_matching Sample.alice 1 2 Sample.world)
           true _ eq_refl))).
Defined.

(** X9. When [deleteTodoList(todoListId)] resolves, the result is true if
    and only if the store had a list with that id for the identity; the
    matching list rows are gone and the other list rows are kept; when the
    result is false the store is unchanged; a [loadTodoList] of the same
    id that follows resolves to [undefined].  Without a fault of the
    environment the promise resolves. *)
Theorem deleteTodoList_removes_own_list
        (this : PgPersistence) (todoListId : Z) (w : World) :
  let matches := list_with_id todoListId (this_username this) in
  (forall b w',
      deleteTodoList this todoListId w = (Resolved b, w') ->
      (b = true <-> exists r, In r (todolists (database w)) /\ matches r = true) /\
      todolists (database w') =
      filter (fun r => negb (matches r)) (todolists (database w)) /\
      (b = false -> database w' = database w) /\
      (forall o w'',
          loadTodoList this todoListId w' = (Resolved o, w'') -> o = None)) /\
  (faults w = [] ->
   exists b w', deleteTodoList this todoListId w = (Resolved b, w')).
Proof.
  intros matches. split.
  - intros b w' H. unfold deleteTodoList in H. open_query H r w1 RS.
    unfold delete_todolist in RS. injection RS as <- E. injection H as <- <-.
    simpl. rewrite count_where_pos. fold matches in E |- *.
    split; [apply existsb_exists|]. split; [now rewrite <- E|]. split.
    + intros N. rewrite <- E. rewrite count_where_pos. fold matches. rewrite N.
      rewrite (delete_where_none _ _ N).
      rewrite delete_where_none.
      * destruct (database w); reflexivity.
      * clear. induction (todo_rows (database w)) as [|t l IH]; simpl;
          [reflexivity|]. now rewrite andb_false_r.
    + intros o w'' L. apply loadTodoList_resolved in L. rewrite <- E in L.
      simpl in L. fold matches in L. now rewrite delete_where_gone in L.
  - intros F. unfold deleteTodoList. run_no_fault F. eauto.
Qed.

Lemma deleteTodoList_removes_own_list_witness :
  (* list 3 is bob's: alice deletes nothing *)
  (exists w',
      deleteTodoList Sample.alice 3 Sample.world = (Resolved false, w') /\
      database w' = database Sample.world) /\
  exists w',
    deleteTodoList Sample.bob 3 Sample.world = (Resolved true, w') /\
    forall o w'', loadTodoList Sample.bob 3 w' = (Resolved o, w'') -> o = None.
Proof.
  split.
  - eexists. split; [reflexivity|].
    refine (proj1 (proj2 (proj2
      (proj1 (deleteTodoList_removes_own_list Sample.alice 3 Sample.world)
             false _ eq_refl))) eq_refl).
  - eexists. split; [reflexivity|].
    refine (proj2 (proj2 (proj2
      (proj1 (deleteTodoList_removes_own_list Sample.bob 3 Sample.world)
             true _ eq_refl)))).
Defined.

(* ================================================================== *)
(** ** existsTodoListTitle, createTodoList and setTitle *)
(* ================================================================== *)

Lemma list_with_title_true t u r :
  list_with_title t u r = true <-> row_title r = t /\ row_username r = u.
Proof.
  unfold list_with_title. rewrite andb_true_iff, !String.eqb_eq. tauto.
Qed.

Lemma length_pos_existsb A (p : A -> bool) (l : list A) :
  (0 <? length (filter p l))%nat = existsb p l.
Proof. apply count_where_pos. Qed.

Lemma existsTodoListTitle_resolved (this : PgPersistence) (title : string)
      (w w' : World) (b : bool) :
  existsTodoListTitle this title w = (Resolved b, w') ->
  b = title_taken (database w) title (this_username this).
Proof.
  intros H. unfold existsTodoListTitle in H. open_query H r w1 RS.
  injection RS as <- _. injection H as <- _. simpl.
  rewrite length_map. apply length_pos_existsb.
Qed.

(** X10. When [existsTodoListTitle(title)] resolves, the result is true if
    and only if the store has a list of the identity whose title is
    exactly [title]; lists of other identities with that title do not
    count.  Without a fault of the environment the promise resolves. *)
Theorem existsTodoListTitle_iff_own_title
        (this : PgPersistence) (title : string) (w : World) :
  (forall b w',
      existsTodoListTitle this title w = (Resolved b, w') ->
      (b = true <->
       exists r, In r (todolists (database w)) /\
                 row_title r = title /\ row_username r = this_username this)) /\
  (faults w = [] ->
   exists b w', existsTodoListTitle this title w = (Resolved b, w')).
Proof.
  split.
  - intros b w' H. apply existsTodoListTitle_resolved in H. subst b.
    unfold title_taken. rewrite existsb_exists.
    split; intros [r [Hr M]]; exists r; (split; [exact Hr|]);
      now apply list_with_title_true.
  - intros F. unfold existsTodoListTitle. run_no_fault F. eauto.
Qed.

Lemma existsTodoListTitle_iff_own_title_witness :
  (* garden is a title of bob, not of alice; titles are compared as they are *)
  (exists w', existsTodoListTitle Sample.alice "garden" Sample.world =
              (Resolved false, w')) /\
  (exists w', existsTodoListTitle Sample.alice "home" Sample.world =
              (Resolved false, w')) /\
  exists r, In r (todolists (database Sample.world)) /\
            row_title r = "Home" /\ row_username r = "alice".
Proof.
  split; [eexists; reflexivity|]. split; [eexists; reflexivity|].
  refine (proj1 (proj1 (existsTodoListTitle_iff_own_title
                          Sample.alice "Home" Sample.world) true _ eq_refl) eq_refl).
Defined.

(** X11. Creating a list and asking for its title: when
    [createTodoList(title)] resolves to true, the store has gained one list
    row, with that title and the identity as owner, and a following
    [existsTodoListTitle(title)] that resolves gives true. *)
Theorem createTodoList_then_exists
        (this : PgPersistence) (title : string) (w w' : World) :
  createTodoList this title w = (Resolved true, w') ->
  todolists (database w') =
  todolists (database w) ++
  [mkTodoListRow (todolists_id_seq (database w)) title (this_username this)] /\
  forall b w'',
    existsTodoListTitle this title w' = (Resolved b, w'') -> b = true.
Proof.
  intros H. apply createTodoList_inserts_under_identity in H.
  split; [exact H|].
  intros b w'' E. apply existsTodoListTitle_resolved in E. subst b.
  unfold title_taken. rewrite H, existsb_app. simpl.
  unfold list_with_title. simpl. rewrite !String.eqb_refl. apply orb_true_r.
Qed.

Lemma createTodoList_then_exists_witness :
  exists w' w'',
    createTodoList Sample.alice "Errands" Sample.world = (Resolved true, w') /\
    existsTodoListTitle Sample.alice "Errands" w' = (Resolved true, w'') /\
    true = true.
Proof.
  eexists. eexists. split; [reflexivity|]. split; [reflexivity|].
  refine (eq_sym (proj2 (createTodoList_then_exists
                           Sample.alice "Errands" Sample.world eq_refl)
                        true _ eq_refl)).
Defined.

(** X12. When [setTitle(todoListId, title)] resolves, the result is true
    if and only if the store has a list with that id for the identity;
    that list carries the new title afterwards, and every other list row
    and every todo is as it was. *)
Theorem setTitle_renames_own_list
        (this : PgPersistence) (todoListId : Z) (title : string) (w : World) :
  let matches := list_with_id todoListId (this_username this) in
  forall b w',
    setTitle this todoListId title w = (Resolved b, w') ->
    (b = true <-> exists r, In r (todolists (database w)) /\ matches r = true) /\
    todolists (database w') =
    map (fun r => if matches r
                  then mkTodoListRow (row_id r) title (row_username r)
                  else r)
        (todolists (database w)) /\
    todo_rows (database w') = todo_rows (database w).
Proof.
  intros matches b w' H. unfold setTitle in H. open_query H r w1 RS.
  destruct (rename_clashes _ _ _ _); [discriminate|].
  injection RS as <- E. injection H as <- <-. simpl.
  rewrite count_where_pos. fold matches in E |- *.
  split; [apply existsb_exists|]. now rewrite <- E.
Qed.

Lemma setTitle_renames_own_list_witness :
  exists w',
    setTitle Sample.alice 2 "House" Sample.world = (Resolved true, w') /\
    todolists (database w') =
    [mkTodoListRow 1 "work" "alice"; mkTodoListRow 2 "House" "alice";
     mkTodoListRow 3 "garden" "bob"; mkTodoListRow 4 "Alpha" "alice"].
Proof.
  eexists. split; [reflexivity|].
  refine (proj1 (proj2 (@setTitle_renames_own_list
                          Sample.alice 2 "House" Sample.world true _ eq_refl))).
Defined.

(** X13. [setTitle] has no handler of its own: whatever error its UPDATE
    is rejected with is the error it rejects with.  Without a fault of the
    environment, renaming a list of the identity to a title that another
    of its lists carries is rejected, the store is unchanged, and
    [isUniqueConstraintViolation] recognises the error, which is what the
    caller relies on. *)
Theorem setTitle_rethrows_unique_violation
        (this : PgPersistence) (todoListId : Z) (title : string) (w : World) :
  (forall error w',
      dbQuery UPDATE_TITLE
              [VStr title; VInt todoListId; VStr (this_username this)] w =
      (Rejected error, w') ->
      setTitle this todoListId title w = (Rejected error, w')) /\
  (faults w = [] ->
   rename_clashes (database w) title todoListId (this_username this) = true ->
   exists error w',
     setTitle this todoListId title w = (Rejected error, w') /\
     isUniqueConstraintViolation error = true /\
     database w' = database w).
Proof.
  split.
  - intros error w' H. unfold setTitle, bind. now rewrite H.
  - intros F C. unfold setTitle. run_no_fault F. rewrite C.
    eexists. eexists. split; [reflexivity|].
    split; [apply unique_violation_classified | reflexivity].
Qed.

Lemma setTitle_rethrows_unique_violation_witness :
  (* alice renames list 2 (Home) to work, the title of her list 1 *)
  exists error w',
    setTitle Sample.alice 2 "work" Sample.world = (Rejected error, w') /\
    isUniqueConstraintViolation error = true /\
    database w' = database Sample.world.
Proof.
  apply (proj2 (setTitle_rethrows_unique_violation Sample.alice 2 "work" Sample.world));
    reflexivity.
Defined.

(* ================================================================== *)
(** ** Writes and the rows of other identities *)
(* ================================================================== *)

Section OtherRows.
Variable A : Type.
Variables p q : A -> bool.
Hypothesis disjoint : forall x, p x = true -> q x = false.

Lemma filter_update_where (f : A -> A) (l : list A) :
  (forall x, p x = true -> q (f x) = false) ->
  filter q (update_where p f l) = filter q l.
Proof.
  intros Hf. unfold update_where. induction l as [|x l IH]; simpl; [reflexivity|].
  destruct (p x) eqn:E.
  - rewrite Hf by exact E. rewrite disjoint by exact E. exact IH.
  - now rewrite IH.
Qed.

Lemma filter_delete_where (l : list A) :
  filter q (delete_where p l) = filter q l.
Proof.
  unfold delete_where. induction l as [|x l IH]; simpl; [reflexivity|].
  destruct (p x) eqn:E; simpl.
  - rewrite disjoint by exact E. exact IH.
  - now rewrite IH.
Qed.
End OtherRows.

Lemma filter_snoc_other A (q : A -> bool) (l : list A) (x : A) :
  q x = false -> filter q (l ++ [x]) = filter q l.
Proof.
  intros H. rewrite filter_app. simpl. rewrite H. apply app_nil_r.
Qed.

Lemma other_user (a u : string) : a <> u -> (u =? a)%string = false.
Proof. intros N. apply String.eqb_neq. congruence. Qed.

Lemma todo_with_id_other a u l i t :
  a <> u -> todo_with_id l i u t = true -> todo_of_user a t = false.
Proof.
  intros N H. apply todo_with_id_true in H. destruct H as [_ [_ H]].
  unfold todo_of_user. rewrite H. now apply other_user.
Qed.

Lemma todo_of_list_other a u l t :
  a <> u -> todo_of_list l u t = true -> todo_of_user a t = false.
Proof.
  intros N H. apply todo_of_list_true in H. destruct H as [_ H].
  unfold todo_of_user. rewrite H. now apply other_user.
Qed.

Lemma list_with_id_other a u i r :
  a <> u -> list_with_id i u r = true -> list_of_user a r = false.
Proof.
  intros N H. apply list_with_id_true in H. destruct H as [_ H].
  unfold list_of_user. rewrite H. now apply other_user.
Qed.

(** The store after a method that is one query and a [return]. *)
Lemma query_method_store R B (s : Statement R) (ps : list Value)
      (f : QueryResult R -> B) (w : World) :
  let w' := snd (bind (dbQuery s ps) (fun r => ret (f r)) w) in
  database w' = database w \/
  database w' = snd (run_statement s ps (database w)).
Proof.
  unfold bind, ret. destruct (dbQuery_store s ps w) as [H|H];
    destruct (dbQuery s ps w) as [[r|e] w1]; simpl in *; auto.
Qed.

Lemma createTodoList_store (this : PgPersistence) (title : string) (w : World) :
  let w' := snd (createTodoList this title w) in
  database w' = database w \/
  database w' =
  snd (insert_todolist title (this_username this) (database w)).
Proof.
  unfold createTodoList, try_catch, bind, ret, throw.
  destruct (dbQuery_store CREATE_TODOLIST
              [VStr title; VStr (this_username this)] w) as [H|H];
    destruct (dbQuery _ _ w) as [[r|e] w1]; simpl in *; auto;
    destruct (isUniqueConstraintViolation e); simpl; auto.
Qed.

Lemma insert_todolist_others a t u db :
  a <> u ->
  lists_of_user a (snd (insert_todolist t u db)) = lists_of_user a db /\
  todos_of_user a (snd (insert_todolist t u db)) = todos_of_user a db.
Proof.
  intros N. unfold insert_todolist.
  destruct (list_exists _ _); [now split|].
  destruct (title_taken _ _ _); [now split|].
  destruct (negb _); [now split|].
  split; [|reflexivity]. unfold lists_of_user. simpl.
  apply filter_snoc_other. unfold list_of_user. simpl. now apply other_user.
Qed.

Lemma insert_todo_others a t l u db :
  a <> u ->
  lists_of_user a (snd (insert_todo t l u db)) = lists_of_user a db /\
  todos_of_user a (snd (insert_todo t l u db)) = todos_of_user a db.
Proof.
  intros N. unfold insert_todo.
  destruct (existsb _ _); [now split|].
  destruct (negb _ || negb _); [now split|].
  split; [reflexivity|]. unfold todos_of_user. simpl.
  apply filter_snoc_other. unfold todo_of_user. simpl. now apply other_user.
Qed.

Lemma query_method_keeps_lists R B (a : string) (s : Statement R)
      (ps : list Value) (f : QueryResult R -> B) :
  (forall db, lists_of_user a (snd (run_statement s ps db)) = lists_of_user a db) ->
  keeps_lists_of a (bind (dbQuery s ps) (fun r => ret (f r))).
Proof.
  intros H w. destruct (query_method_store s ps f w) as [E|E]; rewrite E;
    [reflexivity | apply H].
Qed.

Lemma query_method_keeps_todos R B (a : string) (s : Statement R)
      (ps : list Value) (f : QueryResult R -> B) :
  (forall db, todos_of_user a (snd (run_statement s ps db)) = todos_of_user a db) ->
  keeps_todos_of a (bind (dbQuery s ps) (fun r => ret (f r))).
Proof.
  intros H w. destruct (query_method_store s ps f w) as [E|E]; rewrite E;
    [reflexivity | apply H].
Qed.

(** X14. No write reaches the rows of another identity.  For an identity
    A other than the one of the service, however the method settles:
    [toggleDoneTodo], [removeTodoFromTodoList], [markAllDone], [addTodo],
    [createTodoList] and [setTitle] leave the list rows and the todos of A
    as they were, and [deleteTodoList] leaves the list rows of A as they
    were. *)
Theorem writes_keep_rows_of_others (A : string) (this : PgPersistence) :
  A <> this_username this ->
  (forall l i, keeps_lists_of A (toggleDoneTodo this l i) /\
               keeps_todos_of A (toggleDoneTodo this l i)) /\
  (forall l i, keeps_lists_of A (removeTodoFromTodoList this l i) /\
               keeps_todos_of A (removeTodoFromTodoList this l i)) /\
  (forall l, keeps_lists_of A (markAllDone this l) /\
             keeps_todos_of A (markAllDone this l)) /\
  (forall t l, keeps_lists_of A (addTodo this t l) /\
               keeps_todos_of A (addTodo this t l)) /\
  (forall t, keeps_lists_of A (createTodoList this t) /\
             keeps_todos_of A (createTodoList this t)) /\
  (forall l t, keeps_lists_of A (setTitle this l t) /\
               keeps_todos_of A (setTitle this l t)) /\
  (forall l, keeps_lists_of A (deleteTodoList this l)).
Proof.
  intros N. repeat split; intros;
    unfold toggleDoneTodo, removeTodoFromTodoList, markAllDone, addTodo, setTitle,
      deleteTodoList;
    try (apply query_method_keeps_lists; intros db; simpl);
    try (apply query_method_keeps_todos; intros db; simpl);
    try reflexivity; unfold lists_of_user, todos_of_user; simpl.
  - apply filter_update_where; intros x Hx;
      apply todo_with_id_other with (this_username this) l i; assumption.
  - apply filter_delete_where. intros x Hx.
    now apply todo_with_id_other with (this_username this) l i.
  - apply filter_update_where; intros x Hx;
      apply todo_of_list_other with (this_username this) l; assumption.
  - now apply insert_todo_others.
  - now apply insert_todo_others.
  - intros w. destruct (createTodoList_store this t w) as [H|H]; rewrite H;
      [reflexivity | now apply insert_todolist_others].
  - intros w. destruct (createTodoList_store this t w) as [H|H]; rewrite H;
      [reflexivity | now apply insert_todolist_others].
  - destruct (rename_clashes _ _ _ _); simpl; [reflexivity|].
    apply filter_update_where; intros x Hx;
      apply list_with_id_other with (this_username this) l; assumption.
  - destruct (rename_clashes _ _ _ _); reflexivity.
  - apply filter_delete_where. intros x Hx.
    now apply list_with_id_other with (this_username this) l.
Qed.

Lemma writes_keep_rows_of_others_witness :
  (* alice asks to mark list 3, a list of bob, as done *)
  "bob" <> this_username Sample.alice /\
  todos_of_user "bob" (database (snd (markAllDone Sample.alice 3 Sample.world))) =
  [mkTodo 4 "water" false 3 "bob"].
Proof.
  assert (N : "bob" <> this_username Sample.alice) by discriminate.
  split; [exact N|].
  exact (proj2 (proj1 (proj2 (proj2
    (writes_keep_rows_of_others Sample.alice N))) 3%Z) Sample.world).
Defined.

(* ================================================================== *)
(** ** Methods in sequence *)
(* ================================================================== *)

Lemma toggle_matches l i u t : todo_with_id l i u (toggle t) = todo_with_id l i u t.
Proof. reflexivity. Qed.

Lemma toggle_toggle t : toggle (toggle t) = t.
Proof. destruct t as [i s d l u]. unfold toggle, set_done. simpl. now rewrite negb_involutive. Qed.

Lemma toggle_all_twice l i u (rows : list Todo) :
  update_where (todo_with_id l i u) toggle
    (update_where (todo_with_id l i u) toggle rows) = rows.
Proof.
  unfold update_where. rewrite map_map. rewrite <- (map_id rows) at 2.
  apply map_ext. intros t. destruct (todo_with_id l i u t) eqn:E.
  - now rewrite toggle_matches, E, toggle_toggle.
  - now rewrite E.
Qed.

Lemma filter_update_same A (p : A -> bool) (f : A -> A) (l : list A) :
  (forall x, p (f x) = p x) ->
  filter p (update_where p f l) = map f (filter p l).
Proof.
  intros Hf. unfold update_where. induction l as [|x l IH]; simpl; [reflexivity|].
  destruct (p x) eqn:E.
  - rewrite Hf, E. simpl. now rewrite IH.
  - rewrite E. exact IH.
Qed.

Lemma existsb_update_same A (p : A -> bool) (f : A -> A) (l : list A) :
  (forall x, p (f x) = p x) ->
  existsb p (update_where p f l) = existsb p l.
Proof.
  intros Hf. unfold update_where. induction l as [|x l IH]; simpl; [reflexivity|].
  rewrite IH. destruct (p x) eqn:E; [now rewrite Hf, E | now rewrite E].
Qed.

Lemma toggleDoneTodo_resolved (this : PgPersistence) (l i : Z) (w w' : World)
      (b : bool) :
  toggleDoneTodo this l i w = (Resolved b, w') ->
  b = existsb (todo_with_id l i (this_username this)) (todo_rows (database w)) /\
  database w' =
  with_todos (database w)
    (update_where (todo_with_id l i (this_username this)) toggle
                  (todo_rows (database w))).
Proof.
  intros H. unfold toggleDoneTodo in H. open_query H r w1 RS.
  injection RS as <- E. injection H as <- <-. simpl.
  now rewrite count_where_pos.
Qed.

(** X15. Toggling twice is toggling not at all: when two calls of
    [toggleDoneTodo] with the same ids follow each other and both resolve,
    the store is what it was before the first, and they resolve to the
    same boolean. *)
Theorem toggleDoneTodo_twice_restores
        (this : PgPersistence) (todoListId todoId : Z) (w w1 w2 : World)
        (b1 b2 : bool) :
  toggleDoneTodo this todoListId todoId w = (Resolved b1, w1) ->
  toggleDoneTodo this todoListId todoId w1 = (Resolved b2, w2) ->
  database w2 = database w /\ b2 = b1.
Proof.
  intros H1 H2. apply toggleDoneTodo_resolved in H1, H2.
  destruct H1 as [-> E1], H2 as [-> E2]. rewrite E1 in E2 |- *. simpl in *.
  split.
  - rewrite E2. unfold with_todos. simpl. rewrite toggle_all_twice.
    destruct (database w); reflexivity.
  - apply existsb_update_same. intros t. apply toggle_matches.
Qed.

Lemma toggleDoneTodo_twice_restores_witness :
  exists w1 w2,
    toggleDoneTodo Sample.alice 1 2 Sample.world = (Resolved true, w1) /\
    toggleDoneTodo Sample.alice 1 2 w1 = (Resolved true, w2) /\
    database w2 = database Sample.world.
Proof.
  eexists. eexists. split; [reflexivity|]. split; [reflexivity|].
  refine (proj1 (@toggleDoneTodo_twice_restores
                   Sample.alice 1 2 Sample.world _ _ true true eq_refl eq_refl)).
Defined.

(** X16. After a toggle that succeeded the todo can be loaded, and its
    flag is the opposite of what it was: when [toggleDoneTodo] resolves to
    true and the [loadTodo] of the same ids that follows resolves, it
    resolves to a todo, namely the one [loadTodo] would have found before
    with [done] negated. *)
Theorem toggleDoneTodo_then_loadTodo
        (this : PgPersistence) (todoListId todoId : Z) (w w1 w2 : World)
        (o : option Todo) :
  toggleDoneTodo this todoListId todoId w = (Resolved true, w1) ->
  loadTodo this todoListId todoId w1 = (Resolved o, w2) ->
  exists t,
    hd_error (filter (todo_with_id todoListId todoId (this_username this))
                     (todo_rows (database w))) = Some t /\
    o = Some (mkTodo (todo_id t) (todo_title t) (negb (done t))
                     (todolist_id t) (todo_username t)).
Proof.
  intros H1 H2. apply toggleDoneTodo_resolved in H1. destruct H1 as [B E].
  apply loadTodo_resolved in H2. rewrite E in H2. simpl in H2.
  rewrite filter_update_same in H2 by (intros t; apply toggle_matches).
  symmetry in B. apply existsb_exists in B. destruct B as [x [Hx Mx]].
  destruct (filter _ (todo_rows (database w))) as [|t rest] eqn:F.
  - rewrite (filter_nil_none _ _ F x Hx) in Mx. discriminate.
  - exists t. split; [reflexivity | exact H2].
Qed.

Lemma toggleDoneTodo_then_loadTodo_witness :
  (* todo 2 of list 1 is not done in the sample store *)
  exists t,
    hd_error (filter (todo_with_id 1 2 (this_username Sample.alice))
                     (todo_rows (database Sample.world))) = Some t /\
    Some (mkTodo 2 "Answer mail" true 1 "alice") =
    Some (mkTodo (todo_id t) (todo_title t) (negb (done t))
                 (todolist_id t) (todo_username t)).
Proof.
  refine (@toggleDoneTodo_then_loadTodo Sample.alice 1 2 Sample.world _ _ _
            eq_refl eq_refl).
Defined.

Lemma markAllDone_resolved (this : PgPersistence) (l : Z) (w w' : World) (b : bool) :
  markAllDone this l w = (Resolved b, w') ->
  b = existsb (todo_of_list l (this_username this)) (todo_rows (database w)) /\
  database w' =
  with_todos (database w)
    (update_where (todo_of_list l (this_username this)) (set_done true)
                  (todo_rows (database w))).
Proof.
  intros H. unfold markAllDone in H. open_query H r w1 RS.
  injection RS as <- E. injection H as <- <-. simpl.
  now rewrite count_where_pos.
Qed.

Lemma all_done_after_set (l : list Todo) :
  forallb (fun t => done t) (map (set_done true) l) = true.
Proof. induction l; simpl; auto. Qed.

Lemma none_undone_after_set (l : list Todo) :
  existsb (fun t => negb (done t)) (map (set_done true) l) = false.
Proof. induction l; simpl; auto. Qed.

(** X17. After [markAllDone] succeeded the list is done: when
    [markAllDone(todoListId)] resolves to true and the [loadTodoList] of
    the same id that follows resolves to a list, that list has todos, all
    of them done: [isDoneTodoList] is true of it and [hasUndoneTodos]
    false. *)
Theorem markAllDone_then_list_is_done
        (this : PgPersistence) (todoListId : Z) (w w1 w2 : World) (l : TodoList) :
  markAllDone this todoListId w = (Resolved true, w1) ->
  loadTodoList this todoListId w1 = (Resolved (Some l), w2) ->
  todos l <> [] /\ isDoneTodoList l = true /\ hasUndoneTodos l = false.
Proof.
  intros H1 H2. apply markAllDone_resolved in H1. destruct H1 as [B E].
  apply loadTodoList_resolved in H2. rewrite E in H2. simpl in H2.
  destruct (filter (list_with_id _ _) _) as [|r rest]; [discriminate|].
  injection H2 as ->. simpl.
  rewrite filter_update_same by (intros t; apply set_done_matches).
  symmetry in B. apply existsb_exists in B. destruct B as [x [Hx Mx]].
  unfold isDoneTodoList, hasUndoneTodos. simpl.
  destruct (filter _ (todo_rows (database w))) as [|t ts] eqn:F.
  - rewrite (filter_nil_none _ _ F x Hx) in Mx. discriminate.
  - split; [discriminate|]. split.
    + apply all_done_after_set.
    + apply none_undone_after_set.
Qed.

Lemma markAllDone_then_list_is_done_witness :
  markAllDone Sample.alice 1 Sample.world = (Resolved true, Runs.marked) /\
  exists l w2,
    loadTodoList Sample.alice 1 Runs.marked = (Resolved (Some l), w2) /\
    todos l <> [] /\ isDoneTodoList l = true /\ hasUndoneTodos l = false.
Proof.
  assert (H1 : markAllDone Sample.alice 1 Sample.world = (Resolved true, Runs.marked))
    by reflexivity.
  assert (H2 : loadTodoList Sample.alice 1 Runs.marked = Runs.marked_loaded)
    by reflexivity.
  unfold Runs.marked_loaded in H2.
  split; [exact H1|]. eexists. eexists. split; [exact H2|].
  exact (@markAllDone_then_list_is_done _ _ _ _ _ _ H1 H2).
Defined.

Lemma addTodo_resolved (this : PgPersistence) (todoTitle : string) (todoListId : Z)
      (w w' : World) (b : bool) :
  addTodo this todoTitle todoListId w = (Resolved b, w') ->
  todo_rows (database w') =
  todo_rows (database w) ++
  [mkTodo (todos_id_seq (database w)) todoTitle false todoListId
          (this_username this)] /\
  todolists (database w') = todolists (database w).
Proof.
  intros H. unfold addTodo in H. open_query H r w1 RS.
  unfold insert_todo in RS.
  destruct (existsb _ (todo_rows (database w))); [discriminate|].
  destruct (negb _ || negb _); [discriminate|].
  injection RS as _ E. injection H as _ <-. rewrite <- E. simpl. auto.
Qed.

(** X18. After [addTodo] the list is not done: when
    [addTodo(todoTitle, todoListId)] resolves and the [loadTodoList] of the
    same id that follows resolves to a list, the new todo is the last of
    its todos and is not done, so [isDoneTodoList] is false of the list
    and [hasUndoneTodos] true. *)
Theorem addTodo_then_list_is_undone
        (this : PgPersistence) (todoTitle : string) (todoListId : Z)
        (w w1 w2 : World) (b : bool) (l : TodoList) :
  addTodo this todoTitle todoListId w = (Resolved b, w1) ->
  loadTodoList this todoListId w1 = (Resolved (Some l), w2) ->
  todos l =
  filter (todo_of_list todoListId (this_username this)) (todo_rows (database w)) ++
  [mkTodo (todos_id_seq (database w)) todoTitle false todoListId
          (this_username this)] /\
  isDoneTodoList l = false /\ hasUndoneTodos l = true.
Proof.
  intros H1 H2.
  apply addTodo_resolved in H1. destruct H1 as [T1 L1].
  apply loadTodoList_resolved in H2. rewrite T1, L1 in H2.
  destruct (filter (list_with_id _ _) _) as [|r rest]; [discriminate|].
  injection H2 as ->.
  assert (T : todos (with_list_todos r
                (filter (todo_of_list todoListId (this_username this))
                   (todo_rows (database w) ++
                    [mkTodo (todos_id_seq (database w)) todoTitle false todoListId
                            (this_username this)]))) =
              filter (todo_of_list todoListId (this_username this))
                     (todo_rows (database w)) ++
              [mkTodo (todos_id_seq (database w)) todoTitle false todoListId
                      (this_username this)]).
  { simpl. rewrite filter_app. simpl. unfold todo_of_list at 2. simpl.
    now rewrite Z.eqb_refl, String.eqb_refl. }
  split; [exact T|]. unfold isDoneTodoList, hasUndoneTodos. rewrite T.
  rewrite forallb_app, existsb_app. simpl.
  now rewrite !andb_false_r, orb_true_r.
Qed.

Lemma addTodo_then_list_is_undone_witness :
  (* list 2 of alice has one todo, which is done *)
  addTodo Sample.alice "dust" 2 Sample.world = (Resolved true, Runs.added) /\
  exists l w2,
    loadTodoList Sample.alice 2 Runs.added = (Resolved (Some l), w2) /\
    todos l =
    filter (todo_of_list 2 (this_username Sample.alice))
           (todo_rows (database Sample.world)) ++
    [mkTodo (todos_id_seq (database Sample.world)) "dust" false 2
            (this_username Sample.alice)] /\
    isDoneTodoList l = false /\ hasUndoneTodos l = true.
Proof.
  assert (H1 : addTodo Sample.alice "dust" 2 Sample.world = (Resolved true, Runs.added))
    by reflexivity.
  assert (H2 : loadTodoList Sample.alice 2 Runs.added = Runs.added_loaded)
    by reflexivity.
  unfold Runs.added_loaded in H2.
  split; [exact H1|]. eexists. eexists. split; [exact H2|].
  exact (@addTodo_then_list_is_undone _ _ _ _ _ _ _ _ H1 H2).
Defined.

(* ================================================================== *)
(** ** isDoneTodoList, hasUndoneTodos and the partition *)
(* ================================================================== *)

Lemma all_done_no_undone (l : list Todo) :
  forallb (fun t => done t) l = negb (existsb (fun t => negb (done t)) l).
Proof.
  induction l as [|t l IH]; simpl; [reflexivity|].
  rewrite IH. now destruct (done t).
Qed.

(** X19. The two predicates on a list: [isDoneTodoList] is true exactly
    of the lists that have todos and of which [hasUndoneTodos] is false;
    the two are never true together, and both are false of a list without
    todos. *)
Theorem isDoneTodoList_hasUndoneTodos :
  (forall l : TodoList,
      isDoneTodoList l = negb (length (todos l) =? 0)%nat && negb (hasUndoneTodos l)) /\
  (forall l : TodoList, isDoneTodoList l && hasUndoneTodos l = false) /\
  (forall i t u,
      isDoneTodoList (mkTodoList i t u []) = false /\
      hasUndoneTodos (mkTodoList i t u []) = false).
Proof.
  repeat split.
  - intros l. unfold isDoneTodoList, hasUndoneTodos.
    rewrite all_done_no_undone. now destruct (todos l).
  - intros l. unfold isDoneTodoList, hasUndoneTodos.
    rewrite all_done_no_undone.
    destruct (existsb _ (todos l)); simpl; now rewrite ?andb_false_r.
Qed.

Lemma undone_of_undone (l : list TodoList) :
  Forall (fun x => isDoneTodoList x = false) (filter isUndoneTodoList l).
Proof.
  apply Forall_forall. intros x Hx. apply filter_In in Hx.
  destruct Hx as [_ Hx]. unfold isUndoneTodoList in Hx.
  now destruct (isDoneTodoList x).
Qed.

Lemma done_of_done (l : list TodoList) :
  Forall (fun x => isDoneTodoList x = true) (filter isDoneTodoList l).
Proof.
  apply Forall_forall. intros x Hx. apply filter_In in Hx. tauto.
Qed.

(** X20. [_partitionTodoLists] returns the lists it is given, each as often
    as it was given, as a run of lists that are not done followed by a run
    of lists that are done; partitioning what is already partitioned
    changes nothing. *)
Theorem _partitionTodoLists_splits (todoLists : list TodoList) :
  Permutation (_partitionTodoLists todoLists) todoLists /\
  (exists undone done_,
      _partitionTodoLists todoLists = undone ++ done_ /\
      Forall (fun x => isDoneTodoList x = false) undone /\
      Forall (fun x => isDoneTodoList x = true) done_) /\
  _partitionTodoLists (_partitionTodoLists todoLists) =
  _partitionTodoLists todoLists.
Proof.
  rewrite !_partitionTodoLists_stable. split; [|split].
  - unfold isUndoneTodoList. apply partition_perm.
  - exists (filter isUndoneTodoList todoLists), (filter isDoneTodoList todoLists).
    split; [reflexivity|]. split; [apply undone_of_undone | apply done_of_done].
  - rewrite !filter_app.
    rewrite (filter_all isUndoneTodoList (l := filter isUndoneTodoList todoLists)).
    + rewrite (filter_none isUndoneTodoList (l := filter isDoneTodoList todoLists)).
      * rewrite (filter_none isDoneTodoList (l := filter isUndoneTodoList todoLists)).
        -- rewrite (filter_all isDoneTodoList (l := filter isDoneTodoList todoLists)).
           ++ now rewrite app_nil_r.
           ++ apply done_of_done.
        -- apply undone_of_undone.
      * eapply Forall_impl; [|apply done_of_done].
        intros x Hx. unfold isUndoneTodoList. now rewrite Hx.
    + eapply Forall_impl; [|apply undone_of_undone].
      intros x Hx. unfold isUndoneTodoList. now rewrite Hx.
Qed.

(* ================================================================== *)
(** ** The list page and the page of all lists *)
(* ================================================================== *)

Lemma forallb_perm A (f : A -> bool) (l l' : list A) :
  Permutation l l' -> forallb f l = forallb f l'.
Proof.
  induction 1; simpl; try congruence.
  now rewrite !andb_assoc, (andb_comm (f y)).
Qed.

Lemma existsb_perm A (f : A -> bool) (l l' : list A) :
  Permutation l l' -> existsb f l = existsb f l'.
Proof.
  induction 1; simpl; try congruence.
  now rewrite !orb_assoc, (orb_comm (f y)).
Qed.

Lemma loadTodoList_keeps_store (this : PgPersistence) (todoListId : Z) :
  keeps_store (loadTodoList this todoListId).
Proof.
  unfold loadTodoList. apply keeps_store_bind.
  - apply keeps_store_all; apply keeps_store_select; reflexivity.
  - intros r. destruct (rows (fst r)); auto with store.
Qed.

Lemma sortedTodos_resolved (this : PgPersistence) (todoList : TodoList)
      (w w' : World) (ts : list Todo) :
  sortedTodos this todoList w = (Resolved ts, w') ->
  ts = order_by todo_leb
         (filter (todo_of_list (id todoList) (this_username this))
                 (todo_rows (database w))).
Proof.
  intros H. unfold sortedTodos in H. open_query H r w1 RS.
  injection RS as <- _. now injection H as <- _.
Qed.

(** X21. The list page loads a list and then replaces its todos by the
    rows of [sortedTodos]: when [loadTodoList(todoListId)] resolves to a
    list and the [sortedTodos] of that list that follows resolves, its
    rows are the todos of the loaded list in another order, so
    [isDoneTodoList] and [hasUndoneTodos] say the same of the list with
    the sorted todos as of the loaded list. *)
Theorem sortedTodos_reorders_loaded_todos
        (this : PgPersistence) (todoListId : Z) (w w1 w2 : World)
        (l : TodoList) (ts : list Todo) :
  loadTodoList this todoListId w = (Resolved (Some l), w1) ->
  sortedTodos this l w1 = (Resolved ts, w2) ->
  Permutation ts (todos l) /\
  isDoneTodoList (set_todos l ts) = isDoneTodoList l /\
  hasUndoneTodos (set_todos l ts) = hasUndoneTodos l.
Proof.
  intros H1 H2.
  assert (D : database w1 = database w).
  { pose proof (loadTodoList_keeps_store this todoListId w) as K.
    now rewrite H1 in K. }
  apply loadTodoList_resolved in H1.
  destruct (filter (list_with_id _ _) _) as [|r rest] eqn:F; [discriminate|].
  injection H1 as ->.
  apply filter_head in F. destruct F as [_ M].
  apply list_with_id_true in M. destruct M as [Mi _].
  apply sortedTodos_resolved in H2. rewrite D in H2. simpl in H2.
  rewrite Mi in H2.
  assert (P : Permutation ts
                (filter (todo_of_list todoListId (this_username this))
                        (todo_rows (database w)))).
  { subst ts. apply order_by_perm. }
  split; [exact P|]. unfold isDoneTodoList, hasUndoneTodos. simpl.
  rewrite (forallb_perm _ P), (existsb_perm _ P), (Permutation_length P).
  auto.
Qed.

Lemma sortedTodos_reorders_loaded_todos_witness :
  loadTodoList Sample.alice 1 Sample.world =
  (Resolved (Some Runs.loaded_list), snd Runs.loaded) /\
  exists ts w2,
    sortedTodos Sample.alice Runs.loaded_list (snd Runs.loaded) = (Resolved ts, w2) /\
    Permutation ts (todos Runs.loaded_list) /\
    isDoneTodoList (set_todos Runs.loaded_list ts) = isDoneTodoList Runs.loaded_list /\
    hasUndoneTodos (set_todos Runs.loaded_list ts) = hasUndoneTodos Runs.loaded_list.
Proof.
  assert (H1 : loadTodoList Sample.alice 1 Sample.world =
               (Resolved (Some Runs.loaded_list), snd Runs.loaded)) by reflexivity.
  assert (H2 : sortedTodos Sample.alice Runs.loaded_list (snd Runs.loaded) =
               Runs.loaded_sorted) by reflexivity.
  unfold Runs.loaded_sorted in H2.
  split; [exact H1|]. eexists. eexists. split; [exact H2|].
  exact (@sortedTodos_reorders_loaded_todos _ _ _ _ _ _ _ H1 H2).
Defined.

Lemma filter_own_todos_of_row (u : string) (i : Z) (l : list Todo) :
  filter (fun t => (i =? todolist_id t)%Z) (filter (todo_of_user u) l) =
  filter (todo_of_list i u) l.
Proof.
  induction l as [|t l IH]; simpl; [reflexivity|].
  unfold todo_of_user at 1, todo_of_list at 1.
  destruct (todo_username t =? u)%string; simpl.
  - rewrite (Z.eqb_sym i), andb_true_r.
    destruct (todolist_id t =? i)%Z; [f_equal|]; exact IH.
  - rewrite andb_false_r. exact IH.
Qed.

(** X22. The page of all lists and the list page see the same todos: when
    [sortedTodoLists()] resolves, each list of the result carries exactly
    the todos of the store with its id and the identity, in the order of
    the table; a [loadTodoList] of its id on the same store that resolves
    gives a list, with the same id and the same todos, hence the same
    [isDoneTodoList]. *)
Theorem sortedTodoLists_todos_as_loaded
        (this : PgPersistence) (w w1 : World) (ls : list TodoList) (l : TodoList) :
  sortedTodoLists this w = (Resolved ls, w1) ->
  In l ls ->
  todos l =
  filter (todo_of_list (id l) (this_username this)) (todo_rows (database w)) /\
  forall o w2,
    loadTodoList this (id l) w = (Resolved o, w2) ->
    exists l', o = Some l' /\ id l' = id l /\ todos l' = todos l /\
               isDoneTodoList l' = isDoneTodoList l.
Proof.
  intros H Hl. apply sortedTodoLists_resolved in H.
  rewrite _partitionTodoLists_stable in H. subst ls.
  assert (Hf : In l (fetched_lists (this_username this) (database w))).
  { apply in_app_or in Hl. destruct Hl as [Hl|Hl]; apply filter_In in Hl; tauto. }
  unfold fetched_lists in Hf. apply in_map_iff in Hf. destruct Hf as [r [<- Hr]].
  apply order_by_In in Hr. apply filter_In in Hr. destruct Hr as [Hr Hu].
  apply list_of_user_true in Hu.
  assert (T : todos (list_with_its_todos (this_username this) (database w) r) =
              filter (todo_of_list (row_id r) (this_username this))
                     (todo_rows (database w))).
  { simpl. apply filter_own_todos_of_row. }
  split; [exact T|].
  intros o w2 L. apply loadTodoList_resolved in L. simpl in L.
  destruct (filter (list_with_id _ _) _) as [|r' rest] eqn:F.
  - assert (M : list_with_id (row_id r) (this_username this) r = true)
      by (apply list_with_id_true; auto).
    rewrite (filter_nil_none _ _ F r Hr) in M. discriminate.
  - apply filter_head in F. destruct F as [_ M].
    apply list_with_id_true in M. destruct M as [Mi _].
    eexists. split; [exact L|]. simpl. split; [exact Mi|].
    split; [now rewrite filter_own_todos_of_row|].
    unfold isDoneTodoList. simpl. now rewrite filter_own_todos_of_row.
Qed.

Lemma sortedTodoLists_todos_as_loaded_witness :
  exists ls w1,
    sortedTodoLists Sample.alice Sample.world = (Resolved ls, w1) /\
    In (mkTodoList 2 "Home" "alice" [mkTodo 3 "sweep" true 2 "alice"]) ls /\
    [mkTodo 3 "sweep" true 2 "alice"] =
    filter (todo_of_list 2 "alice") (todo_rows (database Sample.world)).
Proof.
  assert (H : sortedTodoLists Sample.alice Sample.world = Runs.all_lists)
    by reflexivity.
  unfold Runs.all_lists in H.
  eexists. eexists. split; [exact H|].
  assert (I : In (mkTodoList 2 "Home" "alice" [mkTodo 3 "sweep" true 2 "alice"])
                 [mkTodoList 4 "Alpha" "alice" [];
                  mkTodoList 1 "work" "alice"
                    [mkTodo 1 "buy milk" true 1 "alice";
                     mkTodo 2 "Answer mail" false 1 "alice";
                     mkTodo 5 "Zip files" true 1 "alice";
                     mkTodo 6 "call home" false 1 "alice"];
                  mkTodoList 2 "Home" "alice" [mkTodo 3 "sweep" true 2 "alice"]])
    by (simpl; tauto).
  split; [exact I|].
  exact (proj1 (@sortedTodoLists_todos_as_loaded _ _ _ _ _ H I)).
Defined.
